(** * pgbench_python: the concurrent benchmark runner

    A shallow embedding of [pgbench_python.py] and the properties of its
    sample loop ([worker] / [sync_worker]), of the result aggregation and of
    the life cycle implemented by [runner] and the [__main__] block.

    Modelling conventions.
    - Readings of [time.monotonic()] are integers, in nanoseconds; the
      source holds them as floating-point seconds, whose representation
      error is not modelled.  A duration of [d] seconds is [d * ns_per_s].
    - Python's own bookkeeping takes no time: the clock only advances
      while an adapter call is in flight, and every adapter call takes at
      least one nanosecond (its cost is a [positive]).  The cost of a
      call is what the two readings of the clock around it measure
      (lines 115 and 117): the call and what the interpreter adds to it.
    - Counters held in numpy float arrays are integers ([Z]).
    - Strings are ASCII. *)

From Stdlib Require Import ZArith Lia Ascii Permutation.
From stdpp Require Import base numbers list strings.

Local Open Scope Z_scope.

(** ** Exceptions and results *)

Inductive executor_id :=
| psycopg_execute | psycopg_copy | pypostgresql_execute
| aiopg_execute | aiopg_tuples_execute | asyncpg_execute | asyncpg_copy.

Inductive connector_id :=
| psycopg_connect | pypostgresql_connect | aiopg_connect | asyncpg_connect.

(** [aiopg_tuples_connect = aiopg_connect] (line 78). *)
Definition aiopg_tuples_connect : connector_id := aiopg_connect.

(** The three [RuntimeError]s raised by [runner]. *)
Inductive runtime_msg :=
| COPY_is_not_supported_for (e : executor_id)
| could_not_parse_COPY_query
| COPY_did_not_insert_the_expected_number_of_rows.

Inductive exn :=
| IndexError | KeyError | TypeError | ValueError | AttributeError
| UnboundLocalError
| RuntimeError (m : runtime_msg)
| SystemExit (code : Z)
| DriverError (tag : nat).   (* whatever a driver raises *)

(** What running a piece of the program gives: a value, an exception, or
    nothing yet because the fuel of the sample loop ran out. *)
Inductive res (A : Type) :=
| Ok (a : A)
| Raise (e : exn)
| OutOfFuel.
Arguments Ok {A} a.
Arguments Raise {A} e.
Arguments OutOfFuel {A}.

(** ** Numbers *)

Definition ns_per_s : Z := 1000000000.

(** [round(n / d)] for [d > 0]: Python 3 rounds to the nearest integer and
    halves to the even one. *)
Definition py_round (n d : Z) : Z :=
  let q := n / d in
  let r := n mod d in
  if 2 * r <? d then q
  else if d <? 2 * r then q + 1
  else if Z.even q then q else q + 1.

(** [min_latency] starts as [float('inf')]. *)
Inductive latency :=
| LInf
| Lat (v : Z).

(** [a < b] on latencies. *)
Definition lat_ltb (a b : latency) : bool :=
  match a, b with
  | LInf, _ => false
  | Lat _, LInf => true
  | Lat x, Lat y => x <? y
  end.

Definition lat_le (a b : latency) : Prop :=
  match a, b with
  | _, LInf => True
  | LInf, Lat _ => False
  | Lat x, Lat y => x <= y
  end.

(** ** numpy arrays of one dimension *)

(** [np.zeros((n,))]: a negative dimension is a [ValueError]. *)
Definition np_zeros (n : Z) : res (list Z) :=
  if n <? 0 then Raise ValueError else Ok (replicate (Z.to_nat n) 0).

(** The position an index [i] denotes in an array of [len] cells: negative
    indices count from the end, anything else is out of bounds. *)
Definition np_index (len : nat) (i : Z) : option nat :=
  if (0 <=? i) && (i <? Z.of_nat len) then Some (Z.to_nat i)
  else if (- Z.of_nat len <=? i) && (i <? 0) then Some (Z.to_nat (i + Z.of_nat len))
  else None.

(** [a[i] += 1]. *)
Definition np_incr (a : list Z) (i : Z) : res (list Z) :=
  match np_index (length a) i with
  | Some k => Ok (alter Z.succ k a)
  | None => Raise IndexError
  end.

(** [np.add(a, b)] with numpy's broadcasting of a one-cell operand. *)
Definition np_add (a b : list Z) : res (list Z) :=
  if decide (length a = length b) then Ok (zip_with Z.add a b)
  else match a, b with
       | [x], _ => Ok (Z.add x <$> b)
       | _, [y] => Ok ((fun x => x + y) <$> a)
       | _, _ => Raise ValueError
       end.

(** The sum of all the cells. *)
Definition hist_total (h : list Z) : Z := foldr Z.add 0 h.

(** ** The sample loop (lines 107-148) *)

(** The tuple a worker returns. *)
Record WorkerResult := {
  queries : Z;
  rows : Z;
  latency_stats : list Z;
  min_latency : latency;
  max_latency : Z
}.

(** What one adapter call does: it takes [cost] nanoseconds and then
    returns a row count or raises. *)
Inductive answer :=
| Rows (n : Z)
| Fails (e : exn).

Definition call : Type := positive * answer.

(** A worker's own time line: its clock and the number of calls its
    connection has served so far. *)
Record timeline := { now : Z; calls : nat }.

(** [req_time] of a request that took [elapsed] nanoseconds:
    [round(seconds * 1000 * 100)]. *)
Definition req_time_of (elapsed : Z) : Z :=
  py_round (elapsed * 1000 * 100) ns_per_s.

(** Lines 119-124: the bookkeeping of one sample. *)
Definition record_sample (acc : WorkerResult) (n : Z) (req_time : Z)
  : res WorkerResult :=
  let rows' := rows acc + n in
  let max' := if max_latency acc <? req_time then req_time else max_latency acc in
  let min' := if lat_ltb (Lat req_time) (min_latency acc)
              then Lat req_time else min_latency acc in
  match np_incr (latency_stats acc) req_time with
  | Ok h => Ok {| queries := queries acc + 1; rows := rows';
                  latency_stats := h; min_latency := min'; max_latency := max' |}
  | Raise e => Raise e
  | OutOfFuel => OutOfFuel
  end.

(** The [while] loop.  [executor k] is the [k]-th call on the worker's
    connection. *)
Fixpoint worker_loop (fuel : nat) (executor : nat -> call)
    (start duration : Z) (tl : timeline) (acc : WorkerResult)
  : res WorkerResult * timeline :=
  if now tl - start <? duration * ns_per_s then
    match fuel with
    | O => (OutOfFuel, tl)
    | S fuel' =>
        let req_start := now tl in
        let '(cost, ans) := executor (calls tl) in
        let tl' := {| now := now tl + Z.pos cost; calls := S (calls tl) |} in
        match ans with
        | Fails e => (Raise e, tl')
        | Rows n =>
            match record_sample acc n (req_time_of (now tl' - req_start)) with
            | Ok acc' => worker_loop fuel' executor start duration tl' acc'
            | Raise e => (Raise e, tl')
            | OutOfFuel => (OutOfFuel, tl')
            end
        end
    end
  else (Ok acc, tl).

Definition worker_init (h : list Z) : WorkerResult :=
  {| queries := 0; rows := 0; latency_stats := h;
     min_latency := LInf; max_latency := 0 |}.

(** [async def worker(executor, eargs, start, duration, timeout)]. *)
Definition worker (fuel : nat) (executor : nat -> call)
    (start duration timeout : Z) (tl : timeline)
  : res WorkerResult * timeline :=
  match np_zeros (timeout * 100) with
  | Ok h => worker_loop fuel executor start duration tl (worker_init h)
  | Raise e => (Raise e, tl)
  | OutOfFuel => (OutOfFuel, tl)
  end.

(** [def sync_worker(executor, eargs, start, duration, timeout)]: the same
    body without the [await]. *)
Definition sync_worker (fuel : nat) (executor : nat -> call)
    (start duration timeout : Z) (tl : timeline)
  : res WorkerResult * timeline :=
  match np_zeros (timeout * 100) with
  | Ok h => worker_loop fuel executor start duration tl (worker_init h)
  | Raise e => (Raise e, tl)
  | OutOfFuel => (OutOfFuel, tl)
  end.

(** ** Aggregation of the workers' results (lines 233-251) *)

(** The five accumulators of the merge loop; [latency_stats] is [None]
    until the first result has been seen. *)
Record Aggregate := {
  a_queries : Z;
  a_rows : Z;
  a_latency_stats : option (list Z);
  a_min_latency : latency;
  a_max_latency : Z
}.

Definition aggregate_init : Aggregate :=
  {| a_queries := 0; a_rows := 0; a_latency_stats := None;
     a_min_latency := LInf; a_max_latency := 0 |}.

(** One turn of [for result in results]. *)
Definition aggregate_step (a : Aggregate) (result : WorkerResult) : res Aggregate :=
  let queries' := a_queries a + queries result in
  let rows' := a_rows a + rows result in
  match (match a_latency_stats a with
         | None => Ok (latency_stats result)
         | Some h => np_add h (latency_stats result)
         end) with
  | Ok h =>
      Ok {| a_queries := queries'; a_rows := rows';
            a_latency_stats := Some h;
            a_min_latency := if lat_ltb (min_latency result) (a_min_latency a)
                             then min_latency result else a_min_latency a;
            a_max_latency := if a_max_latency a <? max_latency result
                             then max_latency result else a_max_latency a |}
  | Raise e => Raise e
  | OutOfFuel => OutOfFuel
  end.

Fixpoint aggregate_from (a : Aggregate) (results : list WorkerResult) : res Aggregate :=
  match results with
  | [] => Ok a
  | result :: results' =>
      match aggregate_step a result with
      | Ok a' => aggregate_from a' results'
      | Raise e => Raise e
      | OutOfFuel => OutOfFuel
      end
  end.

Definition aggregate (results : list WorkerResult) : res Aggregate :=
  aggregate_from aggregate_init results.

(** A merged tuple read again as the tuple of one worker, to merge merges. *)
Definition as_result (a : Aggregate) : option WorkerResult :=
  match a_latency_stats a with
  | Some h => Some {| queries := a_queries a; rows := a_rows a; latency_stats := h;
                      min_latency := a_min_latency a; max_latency := a_max_latency a |}
  | None => None
  end.

(** The merge as the specification words it: sums, cell-wise sums, the
    least minimum and the greatest maximum. *)
Definition sum_queries (rs : list WorkerResult) : Z := foldr Z.add 0 (queries <$> rs).
Definition sum_rows (rs : list WorkerResult) : Z := foldr Z.add 0 (rows <$> rs).
Definition sum_cell (i : nat) (rs : list WorkerResult) : Z :=
  foldr Z.add 0 ((fun r => default 0 (latency_stats r !! i)) <$> rs).
Definition lat_min (a b : latency) : latency := if lat_ltb a b then a else b.
Definition least_min (rs : list WorkerResult) : latency :=
  foldr lat_min LInf (min_latency <$> rs).
Definition greatest_max (rs : list WorkerResult) : Z :=
  foldr Z.max 0 (max_latency <$> rs).

(** The cell-wise sum of the histograms, on [n] cells. *)
Definition sum_hist (n : nat) (rs : list WorkerResult) : list Z :=
  (fun i => sum_cell i rs) <$> seq 0 n.

(** The merge in the words of the specification, for histograms of [n]
    cells. *)
Definition merge_spec (n : nat) (rs : list WorkerResult) : Aggregate :=
  {| a_queries := sum_queries rs;
     a_rows := sum_rows rs;
     a_latency_stats := Some (sum_hist n rs);
     a_min_latency := least_min rs;
     a_max_latency := greatest_max rs |}.

(** A merge read as the tuple of one worker. *)
Definition merge_result (n : nat) (g : list WorkerResult) : WorkerResult :=
  {| queries := sum_queries g; rows := sum_rows g;
     latency_stats := sum_hist n g;
     min_latency := least_min g; max_latency := greatest_max g |}.

(** All the histograms have [n] cells, as they do when they come from
    the workers of one pass. *)
Definition same_cells (n : nat) (rs : list WorkerResult) : Prop :=
  Forall (fun r => length (latency_stats r) = n) rs.

(** ** Strings: the two regular expressions of [runner] *)

Definition is_digit (c : ascii) : bool :=
  let n := nat_of_ascii c in ((48 <=? n) && (n <=? 57))%nat.

(** [\w] *)
Definition is_word (c : ascii) : bool :=
  let n := nat_of_ascii c in
  (is_digit c || ((65 <=? n) && (n <=? 90)) || ((97 <=? n) && (n <=? 122))
   || (n =? 95))%nat.

(** [\s], and what [str.strip()] removes. *)
Definition is_space (c : ascii) : bool :=
  let n := nat_of_ascii c in
  (((9 <=? n) && (n <=? 13)) || ((28 <=? n) && (n <=? 32)))%nat.

Definition is_char (x c : ascii) : bool := bool_decide (x = c).

(** The longest prefix of [s] made of [p] characters, and what follows. *)
Fixpoint span (p : ascii -> bool) (s : list ascii) : list ascii * list ascii :=
  match s with
  | c :: s' => if p c then let '(a, b) := span p s' in (c :: a, b) else ([], s)
  | [] => ([], [])
  end.

(** [re.sub(r'\$\d+', '%s', query)]; [in_digits] holds while the digits of
    a placeholder are being skipped. *)
Fixpoint re_sub_placeholders (in_digits : bool) (s : list ascii) : list ascii :=
  match s with
  | [] => []
  | c :: s' =>
      if in_digits && is_digit c then re_sub_placeholders true s'
      else if is_char "$" c && match s' with d :: _ => is_digit d | [] => false end
      then "%"%char :: "s"%char :: re_sub_placeholders true s'
      else c :: re_sub_placeholders false s'
  end.

Definition re_sub (query : string) : string :=
  String.string_of_list_ascii (re_sub_placeholders false (String.list_ascii_of_string query)).

Fixpoint strip_prefix (p s : list ascii) : option (list ascii) :=
  match p, s with
  | [], _ => Some s
  | a :: p', b :: s' => if is_char a b then strip_prefix p' s' else None
  | _ :: _, [] => None
  end.

(** [query.startswith('COPY ')] *)
Definition startswith_COPY (query : string) : bool :=
  bool_decide (is_Some (strip_prefix (String.list_ascii_of_string "COPY ")
                                     (String.list_ascii_of_string query))).

(** [(?:,\s*\w+)*], greedy; a turn takes at least two characters, so the
    length of the text bounds the number of turns. *)
Fixpoint more_columns (n : nat) (s : list ascii) : list ascii * list ascii :=
  match n with
  | O => ([], s)
  | S n' =>
      match s with
      | c :: s1 =>
          if is_char "," c then
            let '(sp, s2) := span is_space s1 in
            let '(w, s3) := span is_word s2 in
            match w with
            | [] => ([], s)
            | _ :: _ =>
                let '(m, rest) := more_columns n' s3 in
                (c :: sp ++ w ++ m, rest)
            end
          else ([], s)
      | [] => ([], s)
      end
  end.

(** [re.match] of the COPY pattern of line 167 on [query]: the text
    [COPY ], a name (group 1), blanks, an opening parenthesis, blanks, a
    comma-separated list of names (group 2), blanks and a closing
    parenthesis; the match is anchored at the start only.  No character is both [\w] and [\s] or a delimiter, so
    the greedy reading is the only one a backtracking matcher can find. *)
Definition re_match_COPY (query : string) : option (string * string) :=
  match strip_prefix (String.list_ascii_of_string "COPY ") (String.list_ascii_of_string query) with
  | None => None
  | Some s0 =>
      let '(name, s1) := span is_word s0 in
      match name with
      | [] => None
      | _ :: _ =>
          match (span is_space s1).2 with
          | c :: s3 =>
              if is_char "(" c then
                let s4 := (span is_space s3).2 in
                let '(w, s5) := span is_word s4 in
                match w with
                | [] => None
                | _ :: _ =>
                    let '(m, s6) := more_columns (length s5) s5 in
                    match (span is_space s6).2 with
                    | d :: _ =>
                        if is_char ")" d
                        then Some (String.string_of_list_ascii name,
                                   String.string_of_list_ascii (w ++ m))
                        else None
                    | [] => None
                    end
                end
              else None
          | [] => None
          end
      end
  end.

(** [s.split(',')] *)
Fixpoint split_commas (s : list ascii) : list (list ascii) :=
  match s with
  | [] => [[]]
  | c :: s' =>
      if is_char "," c then [] :: split_commas s'
      else match split_commas s' with
           | h :: t => (c :: h) :: t
           | [] => [[c]]
           end
  end.

(** [col.strip()] *)
Definition strip (s : list ascii) : list ascii :=
  rev (span is_space (rev (span is_space s).2)).2.

(** [[col.strip() for col in group2.split(',')]] *)
Definition columns_of (group2 : string) : list string :=
  (fun col => String.string_of_list_ascii (strip col))
    <$> split_commas (String.list_ascii_of_string group2).

(** ** Values of the job description *)

Unset Elimination Schemes.
Inductive pyval :=
| PNone
| PBool (b : bool)
| PInt (z : Z)
| PStr (s : string)
| PList (l : list pyval)
| PDict (d : list (string * pyval)).
Set Elimination Schemes.

Fixpoint dict_get (d : list (string * pyval)) (key : string) : option pyval :=
  match d with
  | [] => None
  | (k, v) :: d' => if decide (key = k) then Some v else dict_get d' key
  end.

(** [v[key]] for a string [key] *)
Definition subscript (v : pyval) (key : string) : res pyval :=
  match v with
  | PDict d => match dict_get d key with Some x => Ok x | None => Raise KeyError end
  | _ => Raise TypeError
  end.

(** [[row] * count] *)
Definition list_times (row count : pyval) : res pyval :=
  match count with
  | PInt n => Ok (PList (replicate (Z.to_nat n) row))
  | PBool b => Ok (PList (replicate (if b then 1%nat else 0%nat) row))
  | _ => Raise TypeError
  end.

(** [len(v)] *)
Definition py_len (v : pyval) : res Z :=
  match v with
  | PList l => Ok (Z.of_nat (length l))
  | PDict d => Ok (Z.of_nat (length d))
  | PStr s => Ok (Z.of_nat (String.length s))
  | _ => Raise TypeError
  end.

(** Truth value of an optional string, as in [if setup:]. *)
Definition truthy (s : option string) : bool :=
  match s with
  | Some s => negb (bool_decide (s = ""%string))
  | None => false
  end.

(** ** The world outside: drivers, the server, the terminal *)

Inductive arg_format := native | python.

Inductive driver := aiopg | aiopg_tuples | asyncpg | psycopg | postgresql.

(** The command line, after [argparse]. *)
Record Args := {
  args_concurrency : nat;
  args_duration : Z;
  args_timeout : Z;
  args_warmup_time : Z;
  args_output_format : string;
  args_driver : driver
}.

(** [data], the report that is printed. *)
Record Report := {
  r_queries : Z;
  r_rows : Z;
  r_duration : Z;
  r_min_latency : latency;
  r_max_latency : Z;
  r_latency_stats : list Z;
  r_output_format : string
}.

(** The job description, after [json.loads]. *)
Record QueryData := {
  qd_query : option string;
  qd_args : option (list pyval);
  qd_setup : option string;
  qd_teardown : option string
}.

(** How the drivers and the server answer.  [connect c i] is the [i]-th
    connection attempt, [execute e conn query args k] the [k]-th call on
    connection [conn]; [None] means success; [admin_fetchval t] is the
    row count of table [t]. *)
Record World := {
  connect : connector_id -> nat -> option exn;
  execute : executor_id -> nat -> string -> list pyval -> nat -> call;
  close : nat -> option exn;
  admin_connect : option exn;
  admin_execute : string -> option exn;
  admin_fetchval : string -> answer
}.

(** What the run did to the outside, in order. *)
Inductive event :=
| Connected (conn : nat)
| Closed (conn : nat)
| AdminConnected
| AdminExecuted (stmt : string)
| AdminCounted (table : string)
| StderrRowcount (n : Z)
| StderrFatal (msg : string)
| Printed (data : Report).

(** The state of a run: the clock, the calls each connection has served,
    and the events so far. *)
Record State := {
  clock : Z;
  served : nat -> nat;
  log : list event
}.

Definition M (A : Type) : Type := State -> res A * State.

Definition ret {A} (a : A) : M A := fun s => (Ok a, s).

Definition raise {A} (e : exn) : M A := fun s => (Raise e, s).

Definition bind {A B} (m : M A) (k : A -> M B) : M B := fun s =>
  match m s with
  | (Ok a, s') => k a s'
  | (Raise e, s') => (Raise e, s')
  | (OutOfFuel, s') => (OutOfFuel, s')
  end.

Notation "'let!' x ':=' m 'in' k" := (bind m (fun x => k))
  (at level 10, x pattern, m at level 100, k at level 200).

(** [try: body finally: fin]: [fin] runs whether [body] returned or
    raised, and an exception of [fin] replaces the outcome of [body]. *)
Definition try_finally {A} (body : M A) (fin : M unit) : M A := fun s =>
  match body s with
  | (OutOfFuel, s') => (OutOfFuel, s')
  | (r, s') =>
      match fin s' with
      | (Ok _, s'') => (r, s'')
      | (Raise e, s'') => (Raise e, s'')
      | (OutOfFuel, s'') => (OutOfFuel, s'')
      end
  end.

(** The state once the events [evs] have happened. *)
Definition logged (s : State) (evs : list event) : State :=
  {| clock := clock s; served := served s; log := log s ++ evs |}.

Definition emit (e : event) : M unit := fun s => (Ok tt, logged s [e]).

Definition lift {A} (r : res A) : M A := fun s => (r, s).

(** An effect on the outside that succeeds, leaving [e], or raises. *)
Definition effect (outcome : option exn) (e : event) : M unit :=
  match outcome with
  | None => emit e
  | Some x => raise x
  end.

(** [die(msg)] *)
Definition die {A} (msg : string) : M A :=
  let! _ := emit (StderrFatal msg) in raise (SystemExit 1).

(** ** The barrier at the end of a pass *)

Definition is_out_of_fuel {A} (r : res A) : bool :=
  match r with OutOfFuel => true | _ => false end.

(** The first exception in the order of the tasks, or all the results. *)
Fixpoint first_raise {A} (outs : list (res A)) : res (list A) :=
  match outs with
  | [] => Ok []
  | Ok a :: outs' =>
      match first_raise outs' with
      | Ok l => Ok (a :: l)
      | Raise e => Raise e
      | OutOfFuel => OutOfFuel
      end
  | Raise e :: _ => Raise e
  | OutOfFuel :: _ => OutOfFuel
  end.

(** [asyncio.gather] and [futures.wait]: every task is run to its end; a
    task still running leaves the whole pass running. *)
Definition gather {A} (outs : list (res A)) : res (list A) :=
  if existsb is_out_of_fuel outs then OutOfFuel else first_raise outs.

(** The clock once every task is over. *)
Definition barrier (start : Z) (ends : list timeline) : Z :=
  foldr Z.max start (now <$> ends).

(** The calls served, once the tasks on [conns] have ended as in [ends]. *)
Fixpoint served_after (served : nat -> nat) (conns : list nat) (ends : list timeline)
  : nat -> nat :=
  match conns, ends with
  | conn :: conns', tl :: ends' =>
      fun j => if decide (j = conn) then calls tl
               else served_after served conns' ends' j
  | _, _ => served
  end.

(** ** [runner] (lines 151-283) *)

Section Runner.

(** The world the run talks to, and the fuel of each sample loop. *)
Variable W : World.
Variable fuel : nat.

(** Lines 162-176: the COPY special case.  Gives the executor to use and
    the rewritten [query_args]. *)
Definition prepare_copy (executor : executor_id) (copy_executor : option executor_id)
    (query : string) (query_args : list pyval)
  : M (executor_id * list pyval) :=
  match copy_executor with
  | None => raise (RuntimeError (COPY_is_not_supported_for executor))
  | Some copy =>
      match re_match_COPY query with
      | None => raise (RuntimeError could_not_parse_COPY_query)
      | Some (group1, group2) =>
          match query_args with
          | [] => raise IndexError
          | query_info :: rest =>
              let! row := lift (subscript query_info "row") in
              let! count := lift (subscript query_info "count") in
              let! payload := lift (list_times row count) in
              ret (copy,
                   payload :: rest
                     ++ [PDict [("table"%string, PStr group1);
                                ("columns"%string, PList (PStr <$> columns_of group2))]])
          end
      end
  end.

(** Lines 178-185: the connections, one after the other. *)
Fixpoint acquire (connector : connector_id) (todo : list nat) (conns : list nat)
  : M (list nat) :=
  match todo with
  | [] => ret conns
  | i :: todo' =>
      let! _ := effect (connect W connector i) (Connected i) in
      acquire connector todo' (conns ++ [i])
  end.

(** Lines 227-231: [for conn in conns: conn.close()]. *)
Fixpoint close_all (conns : list nat) : M unit :=
  match conns with
  | [] => ret tt
  | conn :: conns' =>
      let! _ := effect (close W conn) (Closed conn) in
      close_all conns'
  end.

(** A statement on [admin_conn], a name that is bound only if the
    [if setup:] branch of line 215 was taken. *)
Definition on_admin_conn {A} (admin_conn : bool) (m : M A) : M A :=
  if admin_conn then m else raise UnboundLocalError.

Section Passes.

Variable args : Args.
Variable executor : executor_id.
Variable is_async : bool.
Variable query : string.
Variable query_args : list pyval.
Variable conns : list nat.

Let timeout : Z := args_timeout args * 1000.
Let concurrency : nat := args_concurrency args.

(** One task of a pass on connection [conn], on its own time line from
    [start]: [worker] is given [args.duration] (line 196),
    [sync_worker] is given [run_duration] (line 206). *)
Definition task (s : State) (run_duration : Z) (conn : nat)
  : res WorkerResult * timeline :=
  let start := clock s in
  let tl := {| now := start; calls := served s conn |} in
  if is_async
  then worker fuel (execute W executor conn query query_args)
              start (args_duration args) timeout tl
  else sync_worker fuel (execute W executor conn query query_args)
              start run_duration timeout tl.

(** Lines 187-213.  The tasks are those of [conns[i]] for [i] in
    [range(concurrency)]; [ThreadPoolExecutor] refuses to be built
    with no worker.  The results are taken in the order of the tasks. *)
Definition _do_run (run_duration : Z) : M (list WorkerResult * Z) := fun s =>
  let start := clock s in
  if negb is_async && bool_decide (concurrency = 0%nat)
  then (Raise ValueError, s)
  else
    let outs := task s run_duration <$> take concurrency conns in
    let s' := {| clock := barrier start (snd <$> outs);
                 served := served_after (served s) (take concurrency conns) (snd <$> outs);
                 log := log s |} in
    match gather (fst <$> outs) with
    | Ok results => (Ok (results, clock s' - start), s')
    | Raise e => (Raise e, s')
    | OutOfFuel => (OutOfFuel, s')
    end.

(** Lines 222-225: the warm-up pass, whose results are dropped, and
    the measured pass. *)
Definition both_passes : M (list WorkerResult * Z) :=
  let! _ := (if bool_decide (args_warmup_time args = 0) then ret tt
             else let! _ := _do_run (args_warmup_time args) in ret tt) in
  _do_run (args_duration args).

(** Lines 221-231: the inner [try], which releases the connections
    whatever happened. *)
Definition passes : M (list WorkerResult * Z) :=
  try_finally both_passes (close_all conns).

(** Lines 253-267: the row count of the target table against what the
    measured pass must have inserted. *)
Definition post_check (admin_conn : bool) (queries : Z) : M unit :=
  match last query_args with
  | None => raise IndexError
  | Some copyargs =>
      on_admin_conn admin_conn
        (let! table := lift (subscript copyargs "table") in
         match table with
         | PStr tabname =>
             let! rowcount := lift (match admin_fetchval W tabname with
                                   | Rows n => Ok n
                                   | Fails e => Raise e
                                   end) in
             let! _ := emit (AdminCounted tabname) in
             let! _ := emit (StderrRowcount rowcount) in
             match query_args with
             | [] => raise IndexError
             | payload :: _ =>
                 let! n := lift (py_len payload) in
                 if rowcount <? n * queries
                 then raise (RuntimeError
                               COPY_did_not_insert_the_expected_number_of_rows)
                 else ret tt
             end
         | _ => raise TypeError
         end)
  end.

(** Lines 220-277: the body of the outer [try]. *)
Definition measure (is_copy admin_conn : bool) : M Report :=
  let! (results, duration) := passes in
  let! a := lift (aggregate results) in
  let! _ := (if is_copy then post_check admin_conn (a_queries a) else ret tt) in
  match a_latency_stats a with
  | None => raise AttributeError
  | Some latency_stats =>
      ret {| r_queries := a_queries a; r_rows := a_rows a;
             r_duration := duration;
             r_min_latency := a_min_latency a;
             r_max_latency := a_max_latency a;
             r_latency_stats := latency_stats;
             r_output_format := args_output_format args |}
  end.

End Passes.

(** Lines 215-218: the set-up statement on a connection of its own. *)
Definition run_setup (setup : option string) : M bool :=
  match setup with
  | Some stmt =>
      if truthy setup then
        let! _ := effect (admin_connect W) AdminConnected in
        let! _ := effect (admin_execute W stmt) (AdminExecuted stmt) in
        ret true
      else ret false
  | None => ret false
  end.

(** Lines 279-281: the [finally] of the outer [try]. *)
Definition run_teardown (admin_conn : bool) (teardown : option string) : M unit :=
  match teardown with
  | Some stmt =>
      if truthy teardown
      then on_admin_conn admin_conn
             (effect (admin_execute W stmt) (AdminExecuted stmt))
      else ret tt
  | None => ret tt
  end.

(** The local names of [runner] when the outer [try] is entered. *)
Record Locals := {
  l_query : string;
  l_is_copy : bool;
  l_executor : executor_id;
  l_query_args : list pyval;
  l_conns : list nat;
  l_admin_conn : bool
}.

(** Lines 154-218: everything before the outer [try]. *)
Definition prologue (args : Args) (connector : connector_id) (executor : executor_id)
    (copy_executor : option executor_id) (arg_format : arg_format)
    (query : string) (query_args : list pyval) (setup : option string)
  : M Locals :=
  let concurrency := args_concurrency args in
  let query := match arg_format with python => re_sub query | native => query end in
  let is_copy := startswith_COPY query in
  let! (executor, query_args) :=
    (if is_copy then prepare_copy executor copy_executor query query_args
     else ret (executor, query_args)) in
  let! conns := acquire connector (seq 0 concurrency) [] in
  let! admin_conn := run_setup setup in
  ret {| l_query := query; l_is_copy := is_copy; l_executor := executor;
         l_query_args := query_args; l_conns := conns;
         l_admin_conn := admin_conn |}.

(** Lines 220-281: the outer [try] and its [finally]. *)
Definition guarded (args : Args) (is_async : bool) (teardown : option string)
    (l : Locals) : M Report :=
  try_finally
    (measure args (l_executor l) is_async (l_query l) (l_query_args l)
             (l_conns l) (l_is_copy l) (l_admin_conn l))
    (run_teardown (l_admin_conn l) teardown).

Definition runner (args : Args) (connector : connector_id) (executor : executor_id)
    (copy_executor : option executor_id) (is_async : bool) (arg_format : arg_format)
    (query : string) (query_args : list pyval) (setup teardown : option string)
  : M unit :=
  let! l := prologue args connector executor copy_executor arg_format
                     query query_args setup in
  let! data := guarded args is_async teardown l in
  emit (Printed data).

(** ** The [__main__] block (lines 335-389), from the parsed job on

    The two messages of [die] are written here with single quotes
    around the key names. *)

(** Lines 341-343: [args] of the job, or the empty list. *)
Definition query_args_of (querydata : QueryData) : list pyval :=
  match qd_args querydata with
  | Some l => l
  | None => []
  end.

(** Lines 352-385: connector, executor, copy executor, [is_async] and
    [arg_format] of a driver for a query. *)
Definition select_driver (d : driver) (query : string)
  : connector_id * executor_id * option executor_id * bool * arg_format :=
  match d with
  | aiopg =>
      if startswith_COPY query
      then (psycopg_connect, psycopg_execute, Some psycopg_copy, false, python)
      else (aiopg_connect, aiopg_execute, None, true, python)
  | aiopg_tuples =>
      if startswith_COPY query
      then (psycopg_connect, psycopg_execute, Some psycopg_copy, false, python)
      else (aiopg_tuples_connect, aiopg_tuples_execute, None, true, python)
  | asyncpg => (asyncpg_connect, asyncpg_execute, Some asyncpg_copy, true, native)
  | psycopg => (psycopg_connect, psycopg_execute, Some psycopg_copy, false, python)
  | postgresql => (pypostgresql_connect, pypostgresql_execute, None, false, native)
  end.

Definition main (args : Args) (querydata : QueryData) : M unit :=
  match qd_query querydata with
  | Some query =>
      if truthy (qd_query querydata) then
        let query_args := query_args_of querydata in
        let setup := qd_setup querydata in
        let teardown := qd_teardown querydata in
        if truthy setup && negb (truthy teardown)
        then die "'setup' is present, but 'teardown' is missing in query JSON"
        else
          let '(connector, executor, copy_executor, is_async, arg_format) :=
            select_driver (args_driver args) query in
          runner args connector executor copy_executor is_async arg_format
                 query query_args setup teardown
      else die "missing 'query' in query JSON"
  | None => die "missing 'query' in query JSON"
  end.

End Runner.

(** The events of lines 215-218, when nothing fails. *)
Definition setup_events (setup : option string) : list event :=
  match setup with
  | Some stmt => if truthy setup then [AdminConnected; AdminExecuted stmt] else []
  | None => []
  end.

(** Fuel that lets every sample loop of a run reach its deadline: a turn
    takes a nanosecond at least. *)
Definition enough_fuel (args : Args) : nat :=
  Z.to_nat (Z.max (args_duration args) (args_warmup_time args) * ns_per_s).

(** ** Stub worlds and jobs used as test inputs *)

Definition state0 : State := {| clock := 0; served := fun _ => 0%nat; log := [] |}.

(** An adapter whose [k]-th call on a connection takes [cost k]
    nanoseconds and returns one row; the table of a COPY job is reported
    to hold [rowcount] rows. *)
Definition paced_world (cost : nat -> positive) (rowcount : Z) : World :=
  {| connect := fun _ _ => None;
     execute := fun _ _ _ _ k => (cost k, Rows 1);
     close := fun _ => None;
     admin_connect := None;
     admin_execute := fun _ => None;
     admin_fetchval := fun _ => Rows rowcount |}.

(** Every call takes the same time. *)
Definition stub_world (cost : positive) (rowcount : Z) : World :=
  paced_world (fun _ => cost) rowcount.

Definition ten_ms : positive := 10000000.
Definition two_ms : positive := 2000000.

(** The same, but the third call on connection 0 raises. *)
Definition failing_world : World :=
  {| connect := fun _ _ => None;
     execute := fun _ conn _ _ k =>
       if bool_decide (conn = 0%nat) && bool_decide (k = 2%nat)
       then (ten_ms, Fails (DriverError 7))
       else (ten_ms, Rows 1);
     close := fun _ => None;
     admin_connect := None;
     admin_execute := fun _ => None;
     admin_fetchval := fun _ => Rows 0 |}.

(** The same as [stub_world], but the third connection attempt fails. *)
Definition unreachable_world : World :=
  {| connect := fun _ i => if bool_decide (i = 2%nat) then Some (DriverError 1) else None;
     execute := fun _ _ _ _ _ => (ten_ms, Rows 1);
     close := fun _ => None;
     admin_connect := None;
     admin_execute := fun _ => None;
     admin_fetchval := fun _ => Rows 0 |}.

Definition args_of (concurrency : nat) (duration timeout warmup : Z) (d : driver) : Args :=
  {| args_concurrency := concurrency; args_duration := duration;
     args_timeout := timeout; args_warmup_time := warmup;
     args_output_format := "json"; args_driver := d |}.

(** [COPY t (a, b)] with [args = [{row: [1, "x"], count: 5}]]. *)
Definition copy_query : string := "COPY t (a, b)".
Definition copy_args : list pyval :=
  [PDict [("row"%string, PList [PInt 1; PStr "x"]); ("count"%string, PInt 5)]].

(** ** Reading outcomes *)

Definition is_ok {A} (r : res A) : bool :=
  match r with Ok _ => true | _ => false end.


(** The value of an outcome, [d] if there is none. *)
Definition value_of {A} (d : A) (r : res A) : A :=
  match r with Ok a => a | _ => d end.

Definition no_result : WorkerResult := worker_init [].

(** The report a run printed, if it printed one. *)
Definition printed (l : list event) : option Report :=
  match last l with
  | Some (Printed data) => Some data
  | _ => None
  end.

Definition is_conn_event (e : event) : bool :=
  match e with
  | Connected _ | Closed _ => true
  | _ => false
  end.

(** ** Runs used as examples *)

Definition slow : positive := 400000000.
Definition very_slow : positive := 1500000000.

(** One worker for one second on an adapter that answers in 0.4 s. *)
Abbreviation slow_run :=
  (worker 5 (fun _ => (slow, Rows 1)) 0 1 1000 {| now := 0; calls := 0 |}).

(** [--timeout 2], one thread, one second: a first request of 2 ms, the
    next ones of 0.4 s. *)
Definition two_ms_args : Args := args_of 1 1 2 0 psycopg.
Definition two_ms_run : res WorkerResult * timeline :=
  task (paced_world (fun k => match k with O => two_ms | S _ => slow end) 0) 5
       two_ms_args psycopg_execute false "SELECT 1" [] state0 1 0%nat.

(** An empty histogram for [--timeout 1]. *)
Definition one_s_cells : list Z := replicate (Z.to_nat (1 * 1000 * 100)) 0.

(** Two small results to merge. *)
Definition result_a : WorkerResult :=
  {| queries := 3; rows := 3; latency_stats := [1; 2; 0];
     min_latency := Lat 0; max_latency := 1 |}.
Definition result_b : WorkerResult :=
  {| queries := 2; rows := 7; latency_stats := [0; 0; 2];
     min_latency := Lat 2; max_latency := 2 |}.

(** A job with set-up and tear-down, run by two threads for a second on
    [failing_world]. *)
Definition failing_args : Args := args_of 2 1 1 0 psycopg.
Definition create_table : string := "CREATE TABLE t (a int)".
Definition drop_table : string := "DROP TABLE t".
Definition failing_locals : Locals :=
  {| l_query := "SELECT 1"; l_is_copy := false; l_executor := psycopg_execute;
     l_query_args := []; l_conns := [0; 1]%nat; l_admin_conn := true |}.
Definition failing_state : State :=
  logged state0 [Connected 0; Connected 1; AdminConnected; AdminExecuted create_table].
Abbreviation failing_passes :=
  (both_passes failing_world 200 failing_args (l_executor failing_locals) false
               (l_query failing_locals) (l_query_args failing_locals)
               (l_conns failing_locals) failing_state).

(** A job with a tear-down and no set-up. *)
Definition teardown_only : QueryData :=
  {| qd_query := Some "SELECT 1"%string; qd_args := None;
     qd_setup := None; qd_teardown := Some drop_table |}.

(** A job with a set-up and no tear-down. *)
Definition setup_only : QueryData :=
  {| qd_query := Some "SELECT 1"%string; qd_args := None;
     qd_setup := Some create_table; qd_teardown := None |}.

Definition one_thread : Args := args_of 1 1 1 0 psycopg.

Definition half_s : positive := 500000000.

(** [--warmup-time 1 -D 2] with two workers on an adapter that answers in
    half a second: the warm-up pass alone, asynchronous and threaded. *)
Definition warmup_args (d : driver) : Args := args_of 2 2 1 1 d.
Definition async_warmup : res (list WorkerResult * Z) * State :=
  _do_run (stub_world half_s 0) 10 (warmup_args asyncpg) asyncpg_execute true
          "SELECT 1" [] [0; 1]%nat (args_warmup_time (warmup_args asyncpg)) state0.
Definition sync_warmup : res (list WorkerResult * Z) * State :=
  _do_run (stub_world half_s 0) 10 (warmup_args psycopg) psycopg_execute false
          "SELECT 1" [] [0; 1]%nat (args_warmup_time (warmup_args psycopg)) state0.

(** What a pass returned, in short: the queries of each worker and the
    span of the pass. *)
Definition pass_digest (out : res (list WorkerResult * Z) * State)
  : option (list Z * Z) * Z :=
  (match out.1 with
   | Ok (results, span) => Some (queries <$> results, span)
   | _ => None
   end, clock out.2).

(** Three connections wanted; the third attempt fails. *)
Definition unreachable_run : res unit * State :=
  runner unreachable_world 0 (args_of 3 1 1 0 psycopg) psycopg_connect
         psycopg_execute (Some psycopg_copy) false python "SELECT 1" [] None None
         state0.

(** The COPY job of the specification without set-up and tear-down, and
    with them, on a table that holds [rowcount] rows after the run. *)
Definition copy_job (setup teardown : option string) : QueryData :=
  {| qd_query := Some copy_query; qd_args := Some copy_args;
     qd_setup := setup; qd_teardown := teardown |}.
Definition copy_run (setup teardown : option string) (rowcount : Z)
  : res unit * State :=
  main (stub_world half_s rowcount) 10 one_thread (copy_job setup teardown) state0.



(** ** Invariants and sums used in the statements *)

(** What the loop keeps about the least and greatest latency. *)
Definition bracketed (acc : WorkerResult) : Prop :=
  0 <= queries acc /\
  0 <= max_latency acc /\
  Forall (fun n => 0 <= n) (latency_stats acc) /\
  (forall (i : nat) (n : Z),
     latency_stats acc !! i = Some n -> 0 < n ->
     lat_le (min_latency acc) (Lat (Z.of_nat i)) /\ Z.of_nat i <= max_latency acc) /\
  (queries acc = 0 -> min_latency acc = LInf /\ max_latency acc = 0) /\
  (0 < queries acc ->
   exists m n1 n2,
     min_latency acc = Lat m /\ 0 <= m <= max_latency acc /\
     latency_stats acc !! Z.to_nat m = Some n1 /\ 0 < n1 /\
     latency_stats acc !! Z.to_nat (max_latency acc) = Some n2 /\ 0 < n2).

(** The rows the [k]-th call returned and the time it took. *)
Definition answered_rows (executor : nat -> call) (k : nat) : Z :=
  match (executor k).2 with Rows n => n | Fails _ => 0 end.
Definition call_cost (executor : nat -> call) (k : nat) : Z := Z.pos (executor k).1.
Definition sum_over (f : nat -> Z) (first count : nat) : Z :=
  foldr Z.add 0 (f <$> seq first count).

(** One thread for a second on an adapter that answers in half a second:
    a run that ends well. *)
Abbreviation fine_run :=
  (runner (stub_world half_s 0) 10 one_thread psycopg_connect psycopg_execute
          (Some psycopg_copy) false python "SELECT 1" [] None None state0).

(** The measured pass of such a run. *)
Abbreviation fine_pass :=
  (_do_run (stub_world half_s 0) 10 one_thread psycopg_execute false
           "SELECT 1" [] [0%nat] 1 state0).

(** The event of lines 280-281, when nothing fails. *)
Definition teardown_events (teardown : option string) : list event :=
  match teardown with
  | Some stmt => if truthy teardown then [AdminExecuted stmt] else []
  | None => []
  end.

(** The events of lines 256-263, for a COPY job. *)
Definition is_check (is_copy : bool) (evs : list event) : Prop :=
  if is_copy
  then exists table rowcount, evs = [AdminCounted table; StderrRowcount rowcount]
  else evs = [].

(** An outcome that is not out of fuel, in a state that has only gained
    events that are neither connections nor closes. *)
Definition quietly {A} (s : State) (out : res A * State) : Prop :=
  out.1 <> OutOfFuel /\
  exists tail, out.2 = logged s tail /\ Forall (fun e => is_conn_event e = false) tail.

(** As [stub_world], but the server refuses the set-up statement. *)
Definition refusing_world : World :=
  {| connect := fun _ _ => None;
     execute := fun _ _ _ _ _ => (half_s, Rows 1);
     close := fun _ => None;
     admin_connect := None;
     admin_execute := fun stmt =>
       if bool_decide (stmt = create_table) then Some (DriverError 3) else None;
     admin_fetchval := fun _ => Rows 0 |}.

(** Whether a text starts with a digit. *)
Definition starts_with_digit (s : list ascii) : bool :=
  match s with d :: _ => is_digit d | [] => false end.

(** No dollar sign is followed by a digit: the text holds no placeholder. *)
Fixpoint no_placeholder (s : list ascii) : bool :=
  match s with
  | [] => true
  | c :: s' => negb (is_char "$" c && starts_with_digit s') && no_placeholder s'
  end.

(** A COPY query whose column list is not closed. *)
Definition unclosed_copy : string := "COPY t (a, b".

(** The COPY job of the specification with set-up and tear-down, on a
    table that holds ten rows after the run: a COPY run that ends well. *)
Abbreviation fine_copy_run :=
  (runner (stub_world half_s 10) 10 one_thread psycopg_connect psycopg_execute
          (Some psycopg_copy) false python copy_query copy_args
          (Some create_table) (Some drop_table) state0).

(** A name: one [\w] character or more. *)
Definition is_name (s : list ascii) : Prop :=
  s <> [] /\ Forall (fun c => is_word c = true) s.

(** [", c"] for every further column [c]. *)
Definition further_columns (cs : list (list ascii)) : list ascii :=
  concat ((fun c => ","%char :: " "%char :: c) <$> cs).

(** The text [COPY table (c, cs...)] followed by [tail]. *)
Definition copy_text (table c : list ascii) (cs : list (list ascii))
    (tail : list ascii) : list ascii :=
  String.list_ascii_of_string "COPY " ++ table
    ++ " "%char :: "("%char :: c ++ further_columns cs ++ ")"%char :: tail.

(** [",", blanks, name] for every further column. *)
Definition spaced_columns (pieces : list (list ascii * list ascii)) : list ascii :=
  concat ((fun piece => ","%char :: piece.1 ++ piece.2) <$> pieces).

(** ** The copy adapters' arguments *)

(** Lines 43 and 100, [rows, copy = args[:2]]: the first two arguments;
    unpacking fails when there are fewer. *)
Definition rows_and_copy (args : list pyval) : res (pyval * pyval) :=
  match args with
  | rows :: copy :: _ => Ok (rows, copy)
  | _ => Raise ValueError
  end.

(** Lines 100-102: what [asyncpg_copy] passes to
    [copy_records_to_table]: the table, the columns and the records. *)
Definition asyncpg_copy_arguments (args : list pyval) : res (pyval * pyval * pyval) :=
  match rows_and_copy args with
  | Ok (rows, copy) =>
      match subscript copy "table" with
      | Ok table =>
          match subscript copy "columns" with
          | Ok columns => Ok (table, columns, rows)
          | Raise e => Raise e
          | OutOfFuel => OutOfFuel
          end
      | Raise e => Raise e
      | OutOfFuel => OutOfFuel
      end
  | Raise e => Raise e
  | OutOfFuel => OutOfFuel
  end.

(** A job with an empty query and a set-up statement. *)
Definition empty_query_job : QueryData :=
  {| qd_query := Some EmptyString; qd_args := None;
     qd_setup := Some create_table; qd_teardown := None |}.


(** * Properties *)

(** ** Outcomes *)

Lemma is_ok_pair {A B} (x : res A * B) (d : A) :
  is_ok x.1 = true -> x = (Ok (value_of d x.1), x.2).
Proof. destruct x as [[a|e|] b]; simpl; congruence. Qed.


(** ** Rounding *)

Lemma ns_per_s_pos : 0 < ns_per_s.
Proof. reflexivity. Qed.

(** [py_round n d] is an integer nearest to [n / d]. *)
Lemma py_round_nearest (n d : Z) :
  0 < d -> 2 * Z.abs (py_round n d * d - n) <= d.
Proof.
  intros Hd. unfold py_round.
  pose proof (Z.div_mod n d ltac:(lia)) as Hn.
  pose proof (Z.mod_pos_bound n d Hd) as Hr.
  destruct (Z.ltb_spec (2 * (n mod d)) d);
    [|destruct (Z.ltb_spec d (2 * (n mod d))); [|destruct (Z.even (n / d))]];
    nia.
Qed.

Lemma py_round_nonneg (n d : Z) : 0 < d -> 0 <= n -> 0 <= py_round n d.
Proof.
  intros Hd Hn. unfold py_round.
  pose proof (Z.div_pos n d Hn Hd).
  repeat case_match; lia.
Qed.

Lemma req_time_of_nonneg (elapsed : Z) : 0 <= elapsed -> 0 <= req_time_of elapsed.
Proof. intros. apply py_round_nonneg; [reflexivity | lia]. Qed.

(** ** Arrays *)

Lemma np_index_Some (len : nat) (i : Z) (k : nat) :
  np_index len i = Some k ->
  (k < len)%nat /\ (- Z.of_nat len <= i < Z.of_nat len) /\
  (0 <= i -> k = Z.to_nat i).
Proof.
  unfold np_index. intros H.
  destruct (0 <=? i) eqn:E1, (i <? Z.of_nat len) eqn:E2,
           (- Z.of_nat len <=? i) eqn:E3, (i <? 0) eqn:E4;
    simpl in H; try discriminate; injection H as <-; lia.
Qed.

Lemma np_index_in_range (len : nat) (i : Z) :
  0 <= i < Z.of_nat len -> np_index len i = Some (Z.to_nat i).
Proof.
  intros H. unfold np_index.
  destruct (Z.leb_spec 0 i), (Z.ltb_spec i (Z.of_nat len)); simpl; try lia; done.
Qed.

Lemma np_index_beyond (len : nat) (i : Z) :
  Z.of_nat len <= i -> np_index len i = None.
Proof.
  intros H. unfold np_index.
  destruct (Z.leb_spec 0 i), (Z.ltb_spec i (Z.of_nat len)),
           (Z.leb_spec (- Z.of_nat len) i), (Z.ltb_spec i 0); simpl; try lia; done.
Qed.

Lemma hist_total_alter (h : list Z) (k : nat) :
  (k < length h)%nat -> hist_total (alter Z.succ k h) = hist_total h + 1.
Proof.
  unfold hist_total. revert k.
  induction h as [|x h IH]; intros k Hk; simpl in *; [lia|].
  destruct k as [|k]; simpl; [lia|].
  pose proof (IH k ltac:(lia)) as IHk.
  change (alter Z.succ k h) with (list_alter Z.succ k h) in IHk. lia.
Qed.

Lemma np_incr_Ok (a h : list Z) (i : Z) :
  np_incr a i = Ok h ->
  length h = length a /\ hist_total h = hist_total a + 1 /\
  (- Z.of_nat (length a) <= i < Z.of_nat (length a)) /\
  (0 <= i -> h = alter Z.succ (Z.to_nat i) a).
Proof.
  unfold np_incr. destruct (np_index (length a) i) as [k|] eqn:E; [|discriminate].
  intros [= <-]. apply np_index_Some in E as (Hk & Hi & Hpos).
  split; [apply length_alter|]. split; [by apply hist_total_alter|].
  split; [done|]. intros H0. by rewrite (Hpos H0).
Qed.

(** ** The sample loop *)

Lemma record_sample_Ok (acc acc' : WorkerResult) (n req_time : Z) :
  record_sample acc n req_time = Ok acc' ->
  queries acc' = queries acc + 1 /\
  rows acc' = rows acc + n /\
  np_incr (latency_stats acc) req_time = Ok (latency_stats acc').
Proof.
  unfold record_sample.
  destruct (np_incr (latency_stats acc) req_time) as [h|e|]; [|discriminate..].
  by intros [= <-].
Qed.

(** What the loop keeps: the size of the histogram, and the distance
    between its total and the number of queries. *)
Lemma worker_loop_invariant (fuel : nat) (executor : nat -> call)
    (start duration : Z) (tl tl' : timeline) (acc r : WorkerResult) :
  worker_loop fuel executor start duration tl acc = (Ok r, tl') ->
  length (latency_stats r) = length (latency_stats acc) /\
  hist_total (latency_stats r) - queries r
  = hist_total (latency_stats acc) - queries acc.
Proof.
  revert tl acc. induction fuel as [|fuel IH]; intros tl acc; simpl.
  - destruct (_ <? _); [discriminate|]. by intros [= <- <-].
  - destruct (_ <? _); [|by intros [= <- <-]].
    destruct (executor (calls tl)) as [cost [n|e]]; [|discriminate].
    destruct (record_sample acc n _) as [acc1|e|] eqn:Hrec; [|discriminate..].
    intros Hloop. apply IH in Hloop as [Hlen Htot].
    apply record_sample_Ok in Hrec as (Hq & _ & Hincr).
    apply np_incr_Ok in Hincr as (Hlen1 & Htot1 & _).
    split; [congruence | lia].
Qed.

Lemma np_zeros_Ok (n : Z) (h : list Z) :
  np_zeros n = Ok h -> 0 <= n /\ h = replicate (Z.to_nat n) 0.
Proof.
  unfold np_zeros. destruct (Z.ltb_spec n 0); [discriminate|].
  intros [= <-]. done.
Qed.

Lemma hist_total_zeros (n : nat) : hist_total (replicate n 0) = 0.
Proof. unfold hist_total. induction n as [|n IH]; simpl; [done|]. lia. Qed.

Lemma worker_Ok (fuel : nat) (executor : nat -> call)
    (start duration timeout : Z) (tl tl' : timeline) (r : WorkerResult) :
  worker fuel executor start duration timeout tl = (Ok r, tl') ->
  0 <= timeout * 100 /\
  Z.of_nat (length (latency_stats r)) = timeout * 100 /\
  hist_total (latency_stats r) = queries r.
Proof.
  unfold worker. destruct (np_zeros (timeout * 100)) as [h|e|] eqn:Hz; [|discriminate..].
  apply np_zeros_Ok in Hz as [Hn ->]. intros Hloop.
  apply worker_loop_invariant in Hloop as [Hlen Htot]. simpl in *.
  rewrite hist_total_zeros in Htot. rewrite Hlen, length_replicate. lia.
Qed.

Lemma sync_worker_is_worker (fuel : nat) (executor : nat -> call)
    (start duration timeout : Z) (tl : timeline) :
  sync_worker fuel executor start duration timeout tl
  = worker fuel executor start duration timeout tl.
Proof. reflexivity. Qed.

(** One turn of the loop. *)
Lemma worker_loop_turn (fuel : nat) (executor : nat -> call)
    (start duration : Z) (tl : timeline) (acc : WorkerResult)
    (cost : positive) (n : Z) :
  now tl - start < duration * ns_per_s ->
  executor (calls tl) = (cost, Rows n) ->
  worker_loop (S fuel) executor start duration tl acc
  = let tl' := {| now := now tl + Z.pos cost; calls := S (calls tl) |} in
    match record_sample acc n (req_time_of (Z.pos cost)) with
    | Ok acc' => worker_loop fuel executor start duration tl' acc'
    | Raise e => (Raise e, tl')
    | OutOfFuel => (OutOfFuel, tl')
    end.
Proof.
  intros Hnow Hex. apply Z.ltb_lt in Hnow. cbn [worker_loop].
  rewrite Hnow, Hex. cbn [now].
  replace (now tl + Z.pos cost - now tl) with (Z.pos cost) by lia.
  reflexivity.
Qed.

(** C7: in the tuple a worker returns, asynchronous or threaded, the cells
    of the latency histogram add up to the number of queries. *)
Theorem C7_histogram_total_is_queries (fuel : nat) (executor : nat -> call)
    (start duration timeout : Z) (tl tl' : timeline) (r : WorkerResult) :
  worker fuel executor start duration timeout tl = (Ok r, tl') \/
  sync_worker fuel executor start duration timeout tl = (Ok r, tl') ->
  hist_total (latency_stats r) = queries r.
Proof.
  intros [H|H]; [|rewrite sync_worker_is_worker in H];
    by apply worker_Ok in H as (_ & _ & ?).
Qed.

Lemma C7_histogram_total_is_queries_witness :
  is_ok slow_run.1 = true /\
  queries (value_of no_result slow_run.1) = 3 /\
  hist_total (latency_stats (value_of no_result slow_run.1))
  = queries (value_of no_result slow_run.1).
Proof.
  assert (is_ok slow_run.1 = true) as E by (vm_compute; reflexivity).
  split; [exact E|]. split; [vm_compute; reflexivity|].
  apply (C7_histogram_total_is_queries 5 (fun _ => (slow, Rows 1)) 0 1 1000
           {| now := 0; calls := 0 |} slow_run.2).
  left. exact (is_ok_pair slow_run no_result E).
Defined.

(** C1, as the specification words it, fails: with [--timeout 2] a
    request of 2 ms is counted in cell 200, above [2 * 100 - 1]. *)
Lemma C1_counterexample :
  ~ (forall (i : nat) (n : Z),
       is_ok two_ms_run.1 = true ->
       latency_stats (value_of no_result two_ms_run.1) !! i = Some n ->
       n <> 0 ->
       Z.of_nat i <= args_timeout two_ms_args * 100 - 1).
Proof.
  intros H.
  assert (is_ok two_ms_run.1 = true) as E1 by (vm_compute; reflexivity).
  assert (latency_stats (value_of no_result two_ms_run.1) !! 200%nat = Some 1)
    as E2 by (vm_compute; reflexivity).
  specialize (H 200%nat 1 E1 E2 ltac:(lia)). vm_compute in H. by apply H.
Qed.

(** C1, amended: the histogram of a task has [args.timeout * 1000 * 100]
    cells of a hundredth of a millisecond.  In any turn of the loop a
    sample whose rounded time is below that count is added to the cell of
    that index and the loop goes on; a sample beyond the last cell is
    written nowhere: the worker raises [IndexError]. *)
Theorem C1_bucket_below_timeout_cells (W : World) (fuel : nat) (args : Args)
    (executor : nat -> call) (start duration : Z) (tl : timeline)
    (acc : WorkerResult) (cost : positive) (n : Z) :
  let cells := args_timeout args * 1000 * 100 in
  let req_time := req_time_of (Z.pos cost) in
  let tl' := {| now := now tl + Z.pos cost; calls := S (calls tl) |} in
  Z.of_nat (length (latency_stats acc)) = cells ->
  now tl - start < duration * ns_per_s ->
  executor (calls tl) = (cost, Rows n) ->
  (forall e is_async query query_args s run_duration conn r tl1,
      task W fuel args e is_async query query_args s run_duration conn = (Ok r, tl1) ->
      Z.of_nat (length (latency_stats r)) = cells) /\
  (req_time <= cells - 1 ->
   0 <= req_time /\
   exists acc',
     record_sample acc n req_time = Ok acc' /\
     latency_stats acc' = alter Z.succ (Z.to_nat req_time) (latency_stats acc) /\
     length (latency_stats acc') = length (latency_stats acc) /\
     worker_loop (S fuel) executor start duration tl acc
     = worker_loop fuel executor start duration tl' acc') /\
  (cells - 1 < req_time ->
   worker_loop (S fuel) executor start duration tl acc = (Raise IndexError, tl')).
Proof.
  intros cells req_time tl' Hlen Hnow Hex.
  assert (0 <= req_time) as Hpos by (apply req_time_of_nonneg; lia).
  pose proof (worker_loop_turn fuel executor start duration tl acc cost n Hnow Hex)
    as Hturn.
  cbv zeta in Hturn. fold tl' req_time in Hturn.
  split; [|split].
  - intros e is_async query query_args s run_duration conn r tl1 Htask.
    unfold task in Htask.
    destruct is_async; [|rewrite sync_worker_is_worker in Htask];
      apply worker_Ok in Htask as (_ & Hl & _); rewrite Hl; unfold cells; lia.
  - intros Hin. split; [done|].
    assert (np_incr (latency_stats acc) req_time
            = Ok (alter Z.succ (Z.to_nat req_time) (latency_stats acc))) as Hincr.
    { unfold np_incr. rewrite np_index_in_range by lia. done. }
    eexists. split; [unfold record_sample; rewrite Hincr; reflexivity|].
    cbn [latency_stats]. split; [done|]. split; [apply length_alter|].
    rewrite Hturn. unfold record_sample. rewrite Hincr. reflexivity.
  - intros Hout. rewrite Hturn. unfold record_sample, np_incr.
    rewrite np_index_beyond by lia. reflexivity.
Qed.

Lemma C1_bucket_below_timeout_cells_witness :
  worker_loop 1 (fun _ => (very_slow, Rows 1)) 0 1
              {| now := 0; calls := 0 |} (worker_init one_s_cells)
  = (Raise IndexError, {| now := 1500000000; calls := 1 |}).
Proof.
  apply (C1_bucket_below_timeout_cells (stub_world very_slow 0) 0
           (args_of 1 1 1 0 psycopg) (fun _ => (very_slow, Rows 1)) 0 1
           {| now := 0; calls := 0 |} (worker_init one_s_cells) very_slow 1).
  - vm_compute. reflexivity.
  - vm_compute. reflexivity.
  - reflexivity.
  - vm_compute. reflexivity.
Defined.

(** ** The merge *)

Section Folds.

Context {A : Type} (f : A -> A -> A) (e : A).

Hypothesis f_assoc : forall x y z, f x (f y z) = f (f x y) z.
Hypothesis f_comm : forall x y, f x y = f y x.

Lemma foldr_swap (x y : A) (l : list A) :
  foldr f e (x :: y :: l) = foldr f e (y :: x :: l).
Proof. simpl. by rewrite !f_assoc, (f_comm x y). Qed.

Lemma foldr_perm (l l' : list A) :
  Permutation l l' -> foldr f e l = foldr f e l'.
Proof.
  induction 1 as [|x l l' _ IH|x y l|l l' l'' _ IH1 _ IH2].
  - reflexivity.
  - simpl. by rewrite IH.
  - apply foldr_swap.
  - by rewrite IH1.
Qed.

Lemma foldr_snoc (l : list A) (x : A) :
  foldr f e (l ++ [x]) = f x (foldr f e l).
Proof. rewrite (foldr_perm (l ++ [x]) (x :: l)); [done|]. by rewrite Permutation_app_comm. Qed.

(** When [e] is absorbed by every fold, the fold of a concatenation is
    the combination of the folds. *)
Hypothesis e_absorbed : forall l, f e (foldr f e l) = foldr f e l.

Lemma foldr_app_op (l m : list A) :
  foldr f e (l ++ m) = f (foldr f e l) (foldr f e m).
Proof.
  induction l as [|x l IHl]; simpl; [by rewrite e_absorbed|].
  by rewrite IHl, f_assoc.
Qed.

End Folds.

Ltac lat_cases :=
  unfold lat_min, lat_ltb, lat_le; simpl;
  repeat match goal with
         | |- context [?a <? ?b] => destruct (Z.ltb_spec a b); simpl
         end;
  try done; try (f_equal; lia); try lia.

Lemma lat_ltb_irrefl a : lat_ltb a a = false.
Proof. destruct a; simpl; [done|]. apply Z.ltb_irrefl. Qed.

Lemma lat_min_assoc x y z : lat_min x (lat_min y z) = lat_min (lat_min x y) z.
Proof.
  destruct x as [|x], y as [|y], z as [|z]; lat_cases.
Qed.

Lemma lat_min_comm x y : lat_min x y = lat_min y x.
Proof.
  destruct x as [|x], y as [|y]; lat_cases.
Qed.

Lemma lat_min_inf_l x : lat_min LInf x = x.
Proof. done. Qed.

Lemma lat_le_refl a : lat_le a a.
Proof. destruct a; simpl; [done|lia]. Qed.

Lemma lat_le_trans a b c : lat_le a b -> lat_le b c -> lat_le a c.
Proof. destruct a, b, c; simpl; try done; lia. Qed.

Lemma lat_min_le_l a b : lat_le (lat_min a b) a.
Proof. destruct a, b; lat_cases. Qed.

Lemma lat_min_le_r a b : lat_le (lat_min a b) b.
Proof. rewrite lat_min_comm. apply lat_min_le_l. Qed.

Lemma greatest_max_nonneg (l : list Z) : 0 <= foldr Z.max 0 l.
Proof. induction l; simpl; lia. Qed.

Lemma sum_hist_length n rs : length (sum_hist n rs) = n.
Proof. unfold sum_hist. by rewrite length_fmap, length_seq. Qed.

Lemma sum_hist_lookup n rs i :
  (i < n)%nat -> sum_hist n rs !! i = Some (sum_cell i rs).
Proof.
  intros Hi. unfold sum_hist. rewrite list_lookup_fmap, lookup_seq_lt by done. done.
Qed.

Lemma sum_hist_ext n rs rs' :
  (forall i, (i < n)%nat -> sum_cell i rs = sum_cell i rs') ->
  sum_hist n rs = sum_hist n rs'.
Proof.
  intros H. unfold sum_hist. apply list_fmap_ext. intros i x Hx.
  apply lookup_seq in Hx as [-> Hi]. by apply H.
Qed.

Lemma sum_hist_single n r :
  length (latency_stats r) = n -> sum_hist n [r] = latency_stats r.
Proof.
  intros Hlen. apply list_eq. intros i.
  destruct (decide (i < n)%nat) as [Hi|Hi].
  - rewrite sum_hist_lookup by done. unfold sum_cell. simpl.
    destruct (latency_stats r !! i) as [x|] eqn:E; simpl.
    + f_equal. lia.
    + apply lookup_ge_None in E. lia.
  - rewrite !lookup_ge_None_2; [done| |]; rewrite ?sum_hist_length; lia.
Qed.

Lemma sum_hist_snoc n rs r :
  length (latency_stats r) = n ->
  zip_with Z.add (sum_hist n rs) (latency_stats r) = sum_hist n (rs ++ [r]).
Proof.
  intros Hlen. apply list_eq. intros i.
  rewrite lookup_zip_with.
  destruct (decide (i < n)%nat) as [Hi|Hi].
  - rewrite !sum_hist_lookup by done. simpl.
    destruct (latency_stats r !! i) as [x|] eqn:E; simpl.
    + f_equal. unfold sum_cell. rewrite fmap_app. simpl.
      rewrite (foldr_snoc Z.add 0); [|lia..]. rewrite E. simpl. lia.
    + apply lookup_ge_None in E. lia.
  - rewrite !(lookup_ge_None_2 (sum_hist _ _)) by (rewrite sum_hist_length; lia).
    done.
Qed.

Lemma np_add_same (a b : list Z) :
  length a = length b -> np_add a b = Ok (zip_with Z.add a b).
Proof. intros H. unfold np_add. by rewrite decide_True. Qed.

Lemma aggregate_from_app a l1 l2 :
  aggregate_from a (l1 ++ l2)
  = match aggregate_from a l1 with
    | Ok a' => aggregate_from a' l2
    | Raise e => Raise e
    | OutOfFuel => OutOfFuel
    end.
Proof.
  revert a. induction l1 as [|r l1 IH]; intros a; simpl; [done|].
  destruct (aggregate_step a r); [apply IH|done..].
Qed.

(** The loop of lines 239-251 computes the merge of the specification. *)
Lemma aggregate_is_merge (n : nat) (rs : list WorkerResult) :
  same_cells n rs ->
  aggregate rs = Ok (match rs with [] => aggregate_init | _ :: _ => merge_spec n rs end).
Proof.
  unfold aggregate. induction rs as [|r rs IH] using rev_ind; intros Hall; [done|].
  apply Forall_app in Hall as [Hrs Hr]. rewrite Forall_singleton in Hr.
  rewrite aggregate_from_app, IH by done. simpl.
  assert (exists r0 rs0, rs ++ [r] = r0 :: rs0) as (r0 & rs0 & E)
    by (destruct rs; simpl; eauto).
  rewrite E, <- E. clear E r0 rs0.
  unfold aggregate_step, merge_spec, sum_queries, sum_rows, least_min, greatest_max.
  destruct rs as [|r1 rs1].
  - simpl. rewrite sum_hist_single by done. do 2 f_equal; try lia.
    destruct (Z.ltb_spec 0 (max_latency r)); lia.
  - set (rs := r1 :: rs1) in *. cbn [a_latency_stats a_queries a_rows a_min_latency a_max_latency].
    rewrite np_add_same by (by rewrite sum_hist_length).
    rewrite sum_hist_snoc by done.
    rewrite !fmap_app. cbn [fmap list_fmap].
    rewrite (foldr_snoc Z.add 0), (foldr_snoc Z.add 0), (foldr_snoc lat_min LInf),
      (foldr_snoc Z.max 0); try lia; auto using lat_min_assoc, lat_min_comm.
    f_equal. f_equal; try lia.
    destruct (Z.ltb_spec (foldr Z.max 0 (max_latency <$> rs)) (max_latency r)); lia.
Qed.

Lemma same_cells_perm n rs rs' : Permutation rs rs' -> same_cells n rs -> same_cells n rs'.
Proof. intros Hp. unfold same_cells. by rewrite Hp. Qed.

Lemma merge_spec_perm n rs rs' :
  Permutation rs rs' -> merge_spec n rs = merge_spec n rs'.
Proof.
  intros Hp. unfold merge_spec, sum_queries, sum_rows, least_min, greatest_max.
  f_equal.
  - apply foldr_perm; [lia..|]. by apply fmap_Permutation.
  - apply foldr_perm; [lia..|]. by apply fmap_Permutation.
  - f_equal. apply sum_hist_ext. intros i _. unfold sum_cell.
    apply foldr_perm; [lia..|]. by apply fmap_Permutation.
  - apply foldr_perm; auto using lat_min_assoc, lat_min_comm.
    by apply fmap_Permutation.
  - apply foldr_perm; [lia..|]. by apply fmap_Permutation.
Qed.

Lemma aggregate_perm n rs rs' :
  same_cells n rs -> Permutation rs rs' -> aggregate rs' = aggregate rs.
Proof.
  intros Hall Hp.
  rewrite (aggregate_is_merge n rs), (aggregate_is_merge n rs')
    by eauto using same_cells_perm.
  destruct rs as [|r rs], rs' as [|r' rs']; try done.
  - by apply Permutation_nil_cons in Hp.
  - symmetry in Hp. by apply Permutation_nil_cons in Hp.
  - f_equal. symmetry. by apply merge_spec_perm.
Qed.

(** Folding the folds of the groups. *)
Lemma fold_groups {B} (f : B -> B -> B) (e : B) (proj : WorkerResult -> B)
    (res : list WorkerResult -> WorkerResult) (groups : list (list WorkerResult)) :
  (forall x y z, f x (f y z) = f (f x y) z) ->
  (forall l, f e (foldr f e l) = foldr f e l) ->
  (forall g, proj (res g) = foldr f e (proj <$> g)) ->
  foldr f e (proj <$> (res <$> groups)) = foldr f e (proj <$> concat groups).
Proof.
  intros Hassoc Habs Hres. induction groups as [|g groups IH]; [done|].
  csimpl. rewrite fmap_app, (foldr_app_op f e Hassoc Habs), IH, Hres. done.
Qed.

Lemma merge_of_merges n (groups : list (list WorkerResult)) :
  merge_spec n (merge_result n <$> groups) = merge_spec n (concat groups).
Proof.
  unfold merge_spec, sum_queries, sum_rows, least_min, greatest_max. f_equal.
  - apply fold_groups; [lia|lia|done].
  - apply fold_groups; [lia|lia|done].
  - f_equal. apply sum_hist_ext. intros i Hi. unfold sum_cell.
    apply (fold_groups Z.add 0 (fun r => default 0 (latency_stats r !! i)));
      [lia|lia|].
    intros g. simpl. by rewrite sum_hist_lookup.
  - apply fold_groups; [apply lat_min_assoc|done|done].
  - apply fold_groups; [lia| |done].
    intros l. pose proof (greatest_max_nonneg l). lia.
Qed.

Lemma aggregate_groups n (groups : list (list WorkerResult)) :
  Forall (fun g => g <> []) groups ->
  same_cells n (concat groups) ->
  Forall2 (fun g m => exists a, aggregate g = Ok a /\ as_result a = Some m)
          groups (merge_result n <$> groups) /\
  aggregate (merge_result n <$> groups) = aggregate (concat groups).
Proof.
  intros Hne Hall. split.
  - apply Forall2_fmap_r, Forall_Forall2_diag.
    unfold same_cells in Hall. rewrite Forall_concat in Hall.
    rewrite Forall_forall in Hne, Hall |- *. intros g Hg.
    exists (merge_spec n g). split; [|done].
    rewrite (aggregate_is_merge n g) by (by apply Hall).
    specialize (Hne g Hg). by destruct g.
  - rewrite (aggregate_is_merge n (concat groups)) by done.
    rewrite (aggregate_is_merge n (merge_result n <$> groups)).
    2:{ unfold same_cells. rewrite Forall_fmap. apply Forall_true.
        intros g. simpl. apply sum_hist_length. }
    destruct groups as [|g groups]; [done|].
    rewrite <- merge_of_merges. csimpl.
    apply Forall_cons in Hne as [Hg _]. by destruct g.
Qed.

Lemma merge_bounds rs r :
  r ∈ rs ->
  lat_le (least_min rs) (min_latency r) /\ max_latency r <= greatest_max rs.
Proof.
  unfold least_min, greatest_max.
  induction 1 as [r rs|r r' rs _ [IH1 IH2]]; csimpl.
  - split; [apply lat_min_le_l|lia].
  - split; [|lia]. eapply lat_le_trans; [apply lat_min_le_r|done].
Qed.

Lemma least_min_attained rs :
  rs <> [] -> exists r, r ∈ rs /\ min_latency r = least_min rs.
Proof.
  unfold least_min. induction rs as [|r rs IH]; [done|]. intros _. csimpl.
  destruct rs as [|r' rs'].
  - exists r. split; [left|]. simpl. by destruct (min_latency r).
  - destruct IH as (r1 & Hin & E); [done|].
    set (m := foldr lat_min LInf (min_latency <$> r' :: rs')) in *.
    unfold lat_min at 1. destruct (lat_ltb (min_latency r) m).
    + exists r. split; [left|done].
    + exists r1. split; [by right|done].
Qed.

Lemma greatest_max_attained rs :
  rs <> [] -> Forall (fun r => 0 <= max_latency r) rs ->
  exists r, r ∈ rs /\ max_latency r = greatest_max rs.
Proof.
  unfold greatest_max. induction rs as [|r rs IH]; [done|]. intros _ Hall.
  apply Forall_cons in Hall as [Hr Hall]. csimpl.
  destruct rs as [|r' rs'].
  - exists r. split; [left|]. simpl. lia.
  - destruct IH as (r1 & Hin & E); [done..|].
    set (m := foldr Z.max 0 (max_latency <$> r' :: rs')) in *.
    destruct (Z.max_spec (max_latency r) m) as [[_ ->]|[_ ->]].
    + exists r1. split; [by right|done].
    + exists r. split; [left|done].
Qed.

(** C4: for results whose histograms have the same number of cells, the
    merge loop of [runner] sums the queries and the rows, sums the
    histograms cell by cell, and takes the least of the minima and the
    greatest of the maxima ([merge_spec]); the merged minimum is below
    every worker's minimum and is one of them, the merged maximum is
    above every worker's maximum and is one of them; the outcome is the
    same for every permutation of the results, and merging the merges of
    non-empty groups gives what merging the flat sequence gives. *)
Theorem C4_merge_is_order_independent (n : nat) (rs : list WorkerResult) :
  rs <> [] ->
  same_cells n rs ->
  aggregate rs = Ok (merge_spec n rs) /\
  (forall r, r ∈ rs ->
     lat_le (least_min rs) (min_latency r) /\ max_latency r <= greatest_max rs) /\
  (exists r, r ∈ rs /\ min_latency r = least_min rs) /\
  (Forall (fun r => 0 <= max_latency r) rs ->
   exists r, r ∈ rs /\ max_latency r = greatest_max rs) /\
  (forall rs', Permutation rs rs' -> aggregate rs' = aggregate rs) /\
  (forall groups : list (list WorkerResult),
     concat groups = rs ->
     Forall (fun g => g <> []) groups ->
     exists merged : list WorkerResult,
       Forall2 (fun g m => exists a, aggregate g = Ok a /\ as_result a = Some m)
               groups merged /\
       aggregate merged = aggregate rs).
Proof.
  intros Hne Hall. repeat split.
  - rewrite (aggregate_is_merge n rs) by done. by destruct rs.
  - by apply merge_bounds.
  - by apply merge_bounds.
  - by apply least_min_attained.
  - by apply greatest_max_attained.
  - intros rs' Hp. by apply (aggregate_perm n).
  - intros groups <- Hgroups. exists (merge_result n <$> groups).
    by apply aggregate_groups.
Qed.

Lemma C4_merge_is_order_independent_witness :
  aggregate [result_a; result_b] = Ok (merge_spec 3 [result_a; result_b]) /\
  aggregate [result_b; result_a] = aggregate [result_a; result_b].
Proof.
  assert ([result_a; result_b] <> []) as Hne by done.
  assert (same_cells 3 [result_a; result_b]) as Hall
    by (repeat constructor).
  destruct (C4_merge_is_order_independent 3 [result_a; result_b] Hne Hall)
    as (Hmerge & _ & _ & _ & Hperm & _).
  split; [exact Hmerge|]. apply Hperm. apply perm_swap.
Defined.

(** ** States and their logs *)

Lemma logged_nil (s : State) : logged s [] = s.
Proof. destruct s. unfold logged. simpl. by rewrite app_nil_r. Qed.

Lemma logged_logged (s : State) (a b : list event) :
  logged (logged s a) b = logged s (a ++ b).
Proof. unfold logged. simpl. by rewrite app_assoc. Qed.

Lemma effect_Ok (outcome : option exn) (ev : event) (s s' : State) (u : unit) :
  effect outcome ev s = (Ok u, s') -> outcome = None /\ s' = logged s [ev].
Proof. destruct outcome; simpl; [discriminate|]. by intros [= _ <-]. Qed.

(** ** Acquiring and releasing the connections *)

Lemma acquire_Ok (W : World) (c : connector_id) (todo conns cs : list nat)
    (s s' : State) :
  acquire W c todo conns s = (Ok cs, s') ->
  cs = conns ++ todo /\ s' = logged s (Connected <$> todo) /\
  (forall i, i ∈ todo -> connect W c i = None).
Proof.
  revert conns s. induction todo as [|i todo IH]; intros conns s; simpl.
  - intros [= <- <-]. rewrite app_nil_r, logged_nil. split_and!; [done..|].
    intros i Hi. by apply elem_of_nil in Hi.
  - unfold bind at 1. destruct (connect W c i) as [e|] eqn:E; simpl; [discriminate|].
    intros H. apply IH in H as (-> & -> & Hall).
    rewrite <- app_assoc, logged_logged. split_and!; [done..|].
    intros j [->|Hj]%elem_of_cons; auto.
Qed.

(** The first attempt that fails ends the acquisition: the connections
    opened so far are left open. *)
Lemma acquire_first_failure (W : World) (c : connector_id)
    (pre post conns : list nat) (i : nat) (e : exn) (s : State) :
  (forall j, j ∈ pre -> connect W c j = None) ->
  connect W c i = Some e ->
  acquire W c (pre ++ i :: post) conns s = (Raise e, logged s (Connected <$> pre)).
Proof.
  revert conns s. induction pre as [|j pre IH]; intros conns s Hpre Hi; simpl.
  - unfold bind. rewrite Hi. simpl. by rewrite logged_nil.
  - unfold bind at 1. rewrite (Hpre j) by left. simpl.
    rewrite IH; [|intros; apply Hpre; by right|done].
    by rewrite logged_logged.
Qed.

Lemma close_all_Ok (W : World) (conns : list nat) (s : State) :
  (forall conn, conn ∈ conns -> close W conn = None) ->
  close_all W conns s = (Ok tt, logged s (Closed <$> conns)).
Proof.
  revert s. induction conns as [|conn conns IH]; intros s Hall; simpl.
  - by rewrite logged_nil.
  - unfold bind at 1. rewrite (Hall conn) by left. simpl.
    rewrite IH by (intros; apply Hall; by right). by rewrite logged_logged.
Qed.

(** Releasing never hangs, and closes a prefix of the connections. *)
Lemma close_all_prefix (W : World) (conns : list nat) (s : State) :
  exists k, (close_all W conns s).2 = logged s (Closed <$> take k conns) /\
            (close_all W conns s).1 <> OutOfFuel.
Proof.
  revert s. induction conns as [|conn conns IH]; intros s; simpl.
  - exists 0%nat. by rewrite logged_nil.
  - unfold bind at 1. destruct (close W conn) as [e|]; simpl.
    + exists 0%nat. by rewrite logged_nil.
    + destruct (IH (logged s [Closed conn])) as (k & E & Hne).
      exists (S k). rewrite E, logged_logged. done.
Qed.

(** ** The passes end *)

Lemma record_sample_ends (acc : WorkerResult) (n req_time : Z) :
  record_sample acc n req_time <> OutOfFuel.
Proof.
  unfold record_sample, np_incr.
  by destruct (np_index (length (latency_stats acc)) req_time).
Qed.

(** Every turn takes a nanosecond at least, so the loop has left its
    deadline behind after as many turns as there are nanoseconds to it. *)
Lemma worker_loop_ends (fuel : nat) (executor : nat -> call)
    (start duration : Z) (tl : timeline) (acc : WorkerResult) :
  (Z.to_nat (start + duration * ns_per_s - now tl) <= fuel)%nat ->
  (worker_loop fuel executor start duration tl acc).1 <> OutOfFuel.
Proof.
  revert tl acc. induction fuel as [|fuel IH]; intros tl acc Hfuel; simpl.
  - destruct (Z.ltb_spec (now tl - start) (duration * ns_per_s)); [lia|done].
  - destruct (Z.ltb_spec (now tl - start) (duration * ns_per_s)); [|done].
    destruct (executor (calls tl)) as [cost [n|e]]; [|done].
    pose proof (record_sample_ends acc n
                  (req_time_of (now tl + Z.pos cost - now tl))) as Hrec.
    destruct (record_sample acc n _) as [acc'|e|]; [|done..].
    apply IH. simpl. lia.
Qed.

Lemma worker_ends (fuel : nat) (executor : nat -> call)
    (duration timeout : Z) (tl : timeline) :
  (Z.to_nat (duration * ns_per_s) <= fuel)%nat ->
  (worker fuel executor (now tl) duration timeout tl).1 <> OutOfFuel.
Proof.
  intros Hfuel. unfold worker, np_zeros.
  destruct (timeout * 100 <? 0); [done|].
  apply worker_loop_ends. lia.
Qed.

Lemma to_nat_scaled_le (a b : Z) :
  a <= b -> (Z.to_nat (a * ns_per_s) <= Z.to_nat (b * ns_per_s))%nat.
Proof.
  intros H. pose proof ns_per_s_pos.
  assert (a * ns_per_s <= b * ns_per_s) by nia. lia.
Qed.

Lemma task_ends (W : World) (fuel : nat) (args : Args) (executor : executor_id)
    (is_async : bool) (query : string) (query_args : list pyval)
    (s : State) (run_duration : Z) (conn : nat) :
  (enough_fuel args <= fuel)%nat ->
  run_duration = args_duration args \/ run_duration = args_warmup_time args ->
  (task W fuel args executor is_async query query_args s run_duration conn).1
  <> OutOfFuel.
Proof.
  intros Hfuel Hrd. unfold task, enough_fuel in *.
  destruct is_async; [|rewrite sync_worker_is_worker];
    apply (worker_ends fuel _ _ _ {| now := clock s; calls := served s conn |});
    (etrans; [|exact Hfuel]); apply to_nat_scaled_le; lia.
Qed.

Lemma first_raise_ends {A} (outs : list (res A)) :
  existsb is_out_of_fuel outs = false -> first_raise outs <> OutOfFuel.
Proof.
  induction outs as [|[a|e|] outs IH]; simpl; try done.
  intros H. specialize (IH H). by destruct (first_raise outs).
Qed.

Lemma gather_ends {A} (outs : list (res A)) :
  Forall (fun r => r <> OutOfFuel) outs -> gather outs <> OutOfFuel.
Proof.
  intros Hall. unfold gather.
  destruct (existsb is_out_of_fuel outs) eqn:E; [|by apply first_raise_ends].
  apply existsb_exists in E as (r & Hin & Hr).
  rewrite Forall_forall in Hall. apply list_elem_of_In in Hin.
  specialize (Hall r Hin). by destruct r.
Qed.

Section PassFacts.

Variable W : World.
Variable fuel : nat.
Variable args : Args.
Variable executor : executor_id.
Variable is_async : bool.
Variable query : string.
Variable query_args : list pyval.
Variable conns : list nat.

Local Abbreviation do_run :=
  (_do_run W fuel args executor is_async query query_args conns).
Local Abbreviation two_passes :=
  (both_passes W fuel args executor is_async query query_args conns).

(** A pass leaves no event. *)
Lemma _do_run_log (run_duration : Z) (s : State) :
  log (do_run run_duration s).2 = log s.
Proof.
  unfold _do_run.
  destruct (negb is_async && _); [done|].
  by destruct (gather _).
Qed.

Lemma _do_run_ends (run_duration : Z) (s : State) :
  (enough_fuel args <= fuel)%nat ->
  run_duration = args_duration args \/ run_duration = args_warmup_time args ->
  (do_run run_duration s).1 <> OutOfFuel.
Proof.
  intros Hfuel Hrd. unfold _do_run.
  destruct (negb is_async && _); [done|].
  match goal with |- context [gather ?o] =>
    pose proof (gather_ends o) as Hg; destruct (gather o) end; try done.
  exfalso. apply Hg; [|done].
  rewrite <- list_fmap_compose. apply Forall_fmap, Forall_true.
  intros conn. by apply task_ends.
Qed.

Lemma both_passes_log (s : State) : log (two_passes s).2 = log s.
Proof.
  unfold both_passes, bind.
  destruct (bool_decide (args_warmup_time args = 0)); simpl.
  - apply _do_run_log.
  - pose proof (_do_run_log (args_warmup_time args) s) as H1.
    destruct (_do_run _ _ _ _ _ _ _ _ (args_warmup_time args) s) as [[x|e|] s1];
      simpl in *; try done.
    rewrite <- H1. apply _do_run_log.
Qed.

Lemma both_passes_ends (s : State) :
  (enough_fuel args <= fuel)%nat -> (two_passes s).1 <> OutOfFuel.
Proof.
  intros Hfuel. unfold both_passes, bind.
  destruct (bool_decide (args_warmup_time args = 0)); simpl.
  - apply _do_run_ends; auto.
  - pose proof (_do_run_ends (args_warmup_time args) s Hfuel (or_intror eq_refl)) as H1.
    destruct (_do_run _ _ _ _ _ _ _ _ (args_warmup_time args) s) as [[x|e|] s1];
      simpl in *; try done.
    apply _do_run_ends; auto.
Qed.

(** Line 196 gives [args.duration] to every asynchronous worker: what
    [_do_run] is asked to run for does not matter. *)
Lemma _do_run_async_any_duration (d1 d2 : Z) :
  is_async = true -> do_run d1 = do_run d2.
Proof. intros E. unfold _do_run, task. rewrite E. reflexivity. Qed.

End PassFacts.

(** ** The merge loop and the prologue *)

Lemma aggregate_from_ends (a : Aggregate) (rs : list WorkerResult) :
  aggregate_from a rs <> OutOfFuel.
Proof.
  revert a. induction rs as [|r rs IH]; intros a; simpl; [done|].
  destruct (aggregate_step a r) as [a'|e|] eqn:E; [apply IH|done|].
  unfold aggregate_step, np_add in E.
  destruct (a_latency_stats a) as [h|]; [|done].
  destruct (decide _); [done|].
  by destruct h as [|? [|? ?]], (latency_stats r) as [|? [|? ?]].
Qed.

Lemma run_setup_Ok (W : World) (setup : option string) (admin_conn : bool)
    (s s1 : State) :
  run_setup W setup s = (Ok admin_conn, s1) ->
  admin_conn = truthy setup /\ s1 = logged s (setup_events setup).
Proof.
  unfold run_setup, setup_events. destruct setup as [stmt|].
  - destruct (truthy (Some stmt)).
    + unfold bind. destruct (admin_connect W); simpl; [discriminate|].
      destruct (admin_execute W stmt); simpl; [discriminate|].
      intros [= <- <-]. by rewrite logged_logged.
    + intros [= <- <-]. by rewrite logged_nil.
  - intros [= <- <-]. by rewrite logged_nil.
Qed.

(** The COPY special case touches nothing outside. *)
Lemma prepare_copy_pure (executor : executor_id) (copy_executor : option executor_id)
    (query : string) (query_args : list pyval) (s : State) :
  (prepare_copy executor copy_executor query query_args s).2 = s.
Proof.
  unfold prepare_copy. destruct copy_executor; [|done].
  destruct (re_match_COPY query) as [[g1 g2]|]; [|done].
  destruct query_args as [|query_info rest]; [done|].
  unfold bind, lift.
  destruct (subscript query_info "row"); [|done..].
  destruct (subscript query_info "count"); [|done..].
  by destruct (list_times _ _).
Qed.

Lemma prologue_Ok (W : World) (args : Args) (connector : connector_id)
    (executor : executor_id) (copy_executor : option executor_id)
    (arg_format : arg_format) (query : string) (query_args : list pyval)
    (setup : option string) (l : Locals) (s0 s1 : State) :
  prologue W args connector executor copy_executor arg_format query query_args setup s0
  = (Ok l, s1) ->
  l_conns l = seq 0 (args_concurrency args) /\
  l_admin_conn l = truthy setup /\
  s1 = logged s0 ((Connected <$> seq 0 (args_concurrency args)) ++ setup_events setup).
Proof.
  unfold prologue.
  set (query' := match arg_format with python => re_sub query | native => query end).
  unfold bind at 1.
  match goal with |- context [(if ?b then ?x else ?y) s0] =>
    assert (((if b then x else y) s0).2 = s0) as Hpure
      by (destruct b; [apply prepare_copy_pure|done]);
    destruct ((if b then x else y) s0) as [[[ex qa]|e|] s] end;
    simpl in Hpure; subst; [|discriminate..].
  unfold bind at 1.
  destruct (acquire W connector _ [] s0) as [[conns|e|] s2] eqn:Hacq; [|discriminate..].
  apply acquire_Ok in Hacq as (-> & -> & _).
  unfold bind at 1.
  destruct (run_setup W setup _) as [[admin|e|] s3] eqn:Hsetup; [|discriminate..].
  apply run_setup_Ok in Hsetup as (-> & ->).
  intros [= <- <-]. simpl. by rewrite logged_logged.
Qed.

(** ** The two [try] blocks *)

Lemma truthy_Some (o : option string) :
  truthy o = true -> exists stmt, o = Some stmt.
Proof. destruct o; [eauto|done]. Qed.

Section Guarded.

Variable W : World.
Variable fuel : nat.
Variable args : Args.
Variable is_async : bool.
Variable l : Locals.

Local Abbreviation two_passes :=
  (both_passes W fuel args (l_executor l) is_async (l_query l) (l_query_args l)
               (l_conns l)).
Local Abbreviation measured :=
  (measure W fuel args (l_executor l) is_async (l_query l) (l_query_args l)
           (l_conns l) (l_is_copy l) (l_admin_conn l)).


(** Without the administrative connection, what is measured leaves only
    closed connections behind. *)
Lemma measure_unbound (s : State) :
  l_admin_conn l = false ->
  (two_passes s).1 <> OutOfFuel ->
  (measured s).1 <> OutOfFuel /\
  exists k, log (measured s).2 = log s ++ (Closed <$> take k (l_conns l)).
Proof.
  intros Hadmin Hends.
  pose proof (both_passes_log W fuel args (l_executor l) is_async (l_query l)
                (l_query_args l) (l_conns l) s) as Hlog.
  unfold measure, bind, passes, try_finally. rewrite Hadmin.
  destruct (two_passes s) as [[[results duration]|e|] s2]; [| |done]; simpl in Hlog;
    destruct (close_all_prefix W (l_conns l) s2) as (k & E & Hne);
    destruct (close_all W (l_conns l) s2) as [[u|e'|] s3]; simpl in *; try done;
    subst s3;
    try (split; [done|exists k; simpl; by rewrite Hlog]).
  unfold lift. pose proof (aggregate_from_ends aggregate_init results) as Hagg.
  fold (aggregate results) in Hagg.
  destruct (aggregate results) as [a|e|]; [| |done]; simpl;
    [|split; [done|exists k; simpl; by rewrite Hlog]].
  destruct (l_is_copy l); simpl.
  - unfold post_check. destruct (last (l_query_args l)); simpl;
      (split; [done|exists k; simpl; by rewrite Hlog]).
  - destruct (a_latency_stats a); simpl;
      (split; [done|exists k; simpl; by rewrite Hlog]).
Qed.

End Guarded.



(** C9: a job with a set-up statement and no tear-down statement is
    turned down by the [__main__] block before [runner] is entered: the
    process exits with status 1 after one line on the standard error, and
    nothing else has happened; no connection was opened. *)
Theorem C9_setup_without_teardown_is_rejected (W : World) (fuel : nat)
    (args : Args) (querydata : QueryData) (s : State) :
  truthy (qd_setup querydata) = true ->
  truthy (qd_teardown querydata) = false ->
  exists msg,
    main W fuel args querydata s = (Raise (SystemExit 1), logged s [StderrFatal msg]).
Proof.
  intros Hsetup Hteardown. unfold main.
  destruct (qd_query querydata) as [query|]; [|by eexists].
  destruct (truthy (Some query)); [|by eexists].
  rewrite Hsetup, Hteardown. by eexists.
Qed.

Lemma C9_setup_without_teardown_is_rejected_witness :
  exists msg,
    main (stub_world ten_ms 0) 0 one_thread setup_only state0
    = (Raise (SystemExit 1), logged state0 [StderrFatal msg]).
Proof.
  apply (C9_setup_without_teardown_is_rejected (stub_world ten_ms 0) 0
           one_thread setup_only state0); reflexivity.
Defined.

(** C10: a job with a tear-down statement and no set-up statement passes
    the check of the [__main__] block, which hands it to [runner]; once
    the connections are open, whatever the passes do, the [finally] of
    line 281 reads [admin_conn], which was never bound: the run ends with
    [UnboundLocalError], and the only events are the connections opened
    and those closed: the tear-down statement is not executed. *)
Theorem C10_teardown_without_setup_is_unbound (W : World) (args : Args)
    (querydata : QueryData) (query : string) :
  qd_query querydata = Some query ->
  truthy (qd_query querydata) = true ->
  truthy (qd_setup querydata) = false ->
  truthy (qd_teardown querydata) = true ->
  (forall fuel,
     main W fuel args querydata
     = let '(connector, executor, copy_executor, is_async, arg_format) :=
         select_driver (args_driver args) query in
       runner W fuel args connector executor copy_executor is_async arg_format
              query (query_args_of querydata)
              (qd_setup querydata) (qd_teardown querydata)) /\
  (forall fuel connector executor copy_executor is_async arg_format query_args l s0 s1,
     (enough_fuel args <= fuel)%nat ->
     prologue W args connector executor copy_executor arg_format query query_args
              (qd_setup querydata) s0 = (Ok l, s1) ->
     exists s2 k,
       runner W fuel args connector executor copy_executor is_async arg_format
              query query_args (qd_setup querydata) (qd_teardown querydata) s0
       = (Raise UnboundLocalError, s2) /\
       log s2 = log s0 ++ (Connected <$> seq 0 (args_concurrency args))
                  ++ (Closed <$> take k (seq 0 (args_concurrency args)))).
Proof.
  intros Hquery Hq Hsetup Hteardown. split.
  - intros fuel. unfold main. rewrite Hquery. rewrite Hquery in Hq.
    rewrite Hq, Hsetup. reflexivity.
  - intros fuel connector executor copy_executor is_async arg_format query_args
           l s0 s1 Hfuel Hpro.
    pose proof (prologue_Ok _ _ _ _ _ _ _ _ _ _ _ _ Hpro) as (Hconns & Hadmin & Hs1).
    rewrite Hsetup in Hadmin.
    destruct (measure_unbound W fuel args is_async l s1 Hadmin) as (Hne & k & Hlog).
    { by apply both_passes_ends. }
    destruct (truthy_Some _ Hteardown) as [stmt Hstmt].
    unfold runner, bind at 1. rewrite Hpro.
    unfold bind, guarded, try_finally.
    destruct (measure _ _ _ _ _ _ _ _ _ _ s1) as [[data|e|] s2] eqn:Hm;
      [| |done]; simpl in Hlog;
      unfold run_teardown; rewrite Hstmt, <- Hstmt, Hteardown, Hadmin; simpl;
      exists s2, k; (split; [done|]);
      rewrite Hlog, Hs1, Hconns; simpl;
      assert (setup_events (qd_setup querydata) = []) as ->
        by (unfold setup_events; destruct (qd_setup querydata); [by rewrite Hsetup|done]);
      by rewrite app_nil_r, <- app_assoc.
Qed.

Lemma C10_teardown_without_setup_is_unbound_witness :
  exists s2 k,
    runner (stub_world slow 0) (enough_fuel one_thread) one_thread
           psycopg_connect psycopg_execute (Some psycopg_copy) false python
           "SELECT 1" [] None (Some drop_table) state0
    = (Raise UnboundLocalError, s2) /\
    log s2 = [] ++ (Connected <$> seq 0 1) ++ (Closed <$> take k (seq 0 1)).
Proof.
  destruct (C10_teardown_without_setup_is_unbound (stub_world slow 0) one_thread
              teardown_only "SELECT 1") as [_ Hrun]; [reflexivity..|].
  apply (Hrun (enough_fuel one_thread) psycopg_connect psycopg_execute
              (Some psycopg_copy) false python []
              {| l_query := "SELECT 1"; l_is_copy := false;
                 l_executor := psycopg_execute; l_query_args := [];
                 l_conns := [0%nat]; l_admin_conn := false |}
              state0 (logged state0 [Connected 0])).
  - apply Nat.le_refl.
  - reflexivity.
Defined.

(** ** The runs of the examples *)




(** C2 at its failing input: the warm-up pass of an asynchronous driver
    runs for [args.duration], whatever [_do_run] is asked for.  With
    [--warmup-time 1 -D 2] and an adapter that answers in half a second,
    the asynchronous warm-up takes two seconds and four queries a worker;
    the threaded one takes one second and two queries a worker. *)
Theorem C2_async_warmup_runs_for_duration :
  (forall (W : World) (fuel : nat) (args : Args) (executor : executor_id)
          (query : string) (query_args : list pyval) (conns : list nat) (d1 d2 : Z),
     _do_run W fuel args executor true query query_args conns d1
     = _do_run W fuel args executor true query query_args conns d2) /\
  pass_digest async_warmup = (Some ([4; 4], 2 * ns_per_s), 2 * ns_per_s) /\
  pass_digest sync_warmup = (Some ([2; 2], 1 * ns_per_s), 1 * ns_per_s).
Proof.
  split; [|split; vm_compute; reflexivity].
  intros. by apply _do_run_async_any_duration.
Qed.

(** The first connection attempt that fails ends [runner] with the
    connections opened before it still open (no COPY job here). *)
Lemma runner_connect_failure (W : World) (fuel : nat) (args : Args)
    (connector : connector_id) (executor : executor_id)
    (copy_executor : option executor_id) (is_async : bool) (arg_format : arg_format)
    (query : string) (query_args : list pyval) (setup teardown : option string)
    (i : nat) (e : exn) (s : State) :
  startswith_COPY (match arg_format with python => re_sub query | native => query end)
  = false ->
  (i < args_concurrency args)%nat ->
  (forall j, (j < i)%nat -> connect W connector j = None) ->
  connect W connector i = Some e ->
  runner W fuel args connector executor copy_executor is_async arg_format
         query query_args setup teardown s
  = (Raise e, logged s (Connected <$> seq 0 i)).
Proof.
  intros Hcopy Hi Hpre Hfail. unfold runner, prologue. rewrite Hcopy.
  unfold bind at 1 2 3. simpl.
  assert (exists m, args_concurrency args = (i + S m)%nat) as [m ->]
    by (exists (args_concurrency args - S i)%nat; lia).
  rewrite seq_app. cbn [seq Nat.add].
  rewrite (acquire_first_failure W connector (seq 0 i) _ [] i e s); [done| |done].
  intros j Hj. apply Hpre. apply elem_of_seq in Hj. lia.
Qed.

(** C5 at its failing input: three connections are wanted and the third
    attempt fails.  [runner] ends with the driver's exception before any
    pass (the clock has not moved), and the two connections that were
    opened are not closed. *)
Theorem C5_failed_connect_leaves_connections_open :
  unreachable_run.1 = Raise (DriverError 1) /\
  log unreachable_run.2 = [Connected 0; Connected 1] /\
  clock unreachable_run.2 = 0 /\
  (Closed 0 ∉ log unreachable_run.2) /\ (Closed 1 ∉ log unreachable_run.2).
Proof.
  assert (unreachable_run
          = (Raise (DriverError 1), logged state0 (Connected <$> seq 0 2))) as ->.
  { apply runner_connect_failure; [reflexivity|simpl; lia| |reflexivity].
    intros [|[|j]] Hj; [reflexivity|reflexivity|lia]. }
  simpl. split_and!; try reflexivity.
  - intros H. repeat (apply elem_of_cons in H as [H|H]; [discriminate|]).
    by apply elem_of_nil in H.
  - intros H. repeat (apply elem_of_cons in H as [H|H]; [discriminate|]).
    by apply elem_of_nil in H.
Qed.

(** ** COPY jobs *)

(** The payload becomes [count] copies of the row, and the table and the
    columns read in the query are appended. *)
Lemma prepare_copy_expands (executor copy : executor_id) (query table columns : string)
    (d : list (string * pyval)) (rest : list pyval) (row : pyval) (n : Z) (s : State) :
  re_match_COPY query = Some (table, columns) ->
  dict_get d "row" = Some row ->
  dict_get d "count" = Some (PInt n) ->
  prepare_copy executor (Some copy) query (PDict d :: rest) s
  = (Ok (copy,
         PList (replicate (Z.to_nat n) row) :: rest
           ++ [PDict [("table"%string, PStr table);
                      ("columns"%string, PList (PStr <$> columns_of columns))]]),
     s).
Proof.
  intros Hmatch Hrow Hcount. unfold prepare_copy. rewrite Hmatch.
  unfold bind, lift, subscript. rewrite Hrow, Hcount. reflexivity.
Qed.

Lemma copy_job_expands (s : State) :
  prepare_copy psycopg_execute (Some psycopg_copy) copy_query copy_args s
  = (Ok (psycopg_copy,
         [PList (replicate 5 (PList [PInt 1; PStr "x"]));
          PDict [("table"%string, PStr "t");
                 ("columns"%string, PList [PStr "a"; PStr "b"])]]),
     s).
Proof. reflexivity. Qed.

Lemma last_snoc_cons {A} (x y : A) (l : list A) : last (x :: l ++ [y]) = Some y.
Proof. by rewrite app_comm_cons, last_snoc. Qed.

(** With the administrative connection at hand, the check after the run
    raises exactly when the table holds fewer rows than the payload has,
    times the queries of the measured pass. *)
Lemma post_check_exact (W : World) (payload : list pyval) (rest : list pyval)
    (d : list (string * pyval)) (table : string) (rowcount queries : Z) (s : State) :
  dict_get d "table" = Some (PStr table) ->
  admin_fetchval W table = Rows rowcount ->
  post_check W (PList payload :: rest ++ [PDict d]) true queries s
  = (if rowcount <? Z.of_nat (length payload) * queries
     then Raise (RuntimeError COPY_did_not_insert_the_expected_number_of_rows)
     else Ok tt,
     logged s [AdminCounted table; StderrRowcount rowcount]).
Proof.
  intros Htable Hcount. unfold post_check. rewrite last_snoc_cons.
  unfold on_admin_conn, bind, lift, subscript. rewrite Htable, Hcount. simpl.
  rewrite logged_logged. by destruct (_ <? _).
Qed.

(** C8 at its failing input: the COPY job of the specification, given
    without set-up and tear-down.  The payload is expanded and the pass
    runs, but the check after the run reads [admin_conn], which is bound
    only when there is a set-up statement: the run ends with
    [UnboundLocalError] and the row count of the table is never asked
    for.  With a set-up and a tear-down the check is made: a table with
    fewer rows than five times the queries is an error, a table with
    enough rows is not. *)
Theorem C8_copy_check_needs_the_setup :
  (copy_run None None 10).1 = Raise UnboundLocalError /\
  log (copy_run None None 10).2 = [Connected 0; Closed 0] /\
  (copy_run (Some create_table) (Some drop_table) 9).1
  = Raise (RuntimeError COPY_did_not_insert_the_expected_number_of_rows) /\
  is_ok (copy_run (Some create_table) (Some drop_table) 10).1 = true /\
  r_queries <$> printed (log (copy_run (Some create_table) (Some drop_table) 10).2)
  = Some 2.
Proof. vm_compute. split_and!; reflexivity. Qed.

(** ** More on the sample loop *)

Lemma record_sample_bracketed (acc acc' : WorkerResult) (n t : Z) :
  0 <= t ->
  bracketed acc ->
  record_sample acc n t = Ok acc' ->
  bracketed acc'.
Proof.
  intros Ht (Hq & Hmax & Hall & Hcells & Hzero & Hpos) Hrec.
  unfold record_sample in Hrec.
  destruct (np_incr (latency_stats acc) t) as [h|e|] eqn:Hincr; [|discriminate..].
  apply np_incr_Ok in Hincr as (Hlen & _ & Hrange & Hh). specialize (Hh Ht). subst h.
  injection Hrec as <-. unfold bracketed.
  cbn [queries max_latency latency_stats min_latency].
  assert (Z.to_nat t < length (latency_stats acc))%nat as Hlt by lia.
  destruct (lookup_lt_is_Some_2 _ _ Hlt) as [c Hc].
  rewrite Forall_forall in Hall.
  assert (0 <= c) as Hc0 by (apply Hall; by apply list_elem_of_lookup_2 in Hc).
  assert (forall j : Z, 0 <= j -> j <> t ->
          alter Z.succ (Z.to_nat t) (latency_stats acc) !! Z.to_nat j
          = latency_stats acc !! Z.to_nat j) as Hother.
  { intros j Hj Hjt. apply list_lookup_alter_ne. lia. }
  assert (alter Z.succ (Z.to_nat t) (latency_stats acc) !! Z.to_nat t
          = Some (Z.succ c)) as Hself by (by rewrite list_lookup_alter_eq, Hc).
  split; [lia|]. split; [destruct (Z.ltb_spec (max_latency acc) t); lia|].
  split.
  { apply Forall_forall. intros x Hx. apply list_elem_of_lookup in Hx as [i Hi].
    destruct (decide (i = Z.to_nat t)) as [->|Hne].
    - rewrite Hself in Hi. injection Hi as <-. lia.
    - rewrite list_lookup_alter_ne in Hi by done.
      apply Hall. by apply list_elem_of_lookup_2 in Hi. }
  split.
  { intros i x Hi Hx. destruct (decide (i = Z.to_nat t)) as [->|Hne].
    - rewrite Z2Nat.id by done. split.
      + destruct (min_latency acc) as [|m]; simpl; [done|].
        destruct (Z.ltb_spec t m); simpl; lia.
      + destruct (Z.ltb_spec (max_latency acc) t); lia.
    - rewrite list_lookup_alter_ne in Hi by done.
      destruct (Hcells i x Hi Hx) as [Hlo Hhi]. split.
      + destruct (min_latency acc) as [|m]; simpl in *; [done|].
        destruct (Z.ltb_spec t m); simpl; lia.
      + destruct (Z.ltb_spec (max_latency acc) t); lia. }
  split; [lia|]. intros _.
  destruct (decide (queries acc = 0)) as [Hq0|Hq0].
  - destruct (Hzero Hq0) as [-> ->]. simpl.
    exists t, (Z.succ c), (Z.succ c).
    destruct (Z.ltb_spec 0 t).
    + split_and!; try done; lia.
    + assert (t = 0) as -> by lia. split_and!; try done; lia.
  - destruct Hpos as (m & n1 & n2 & Hm & Hmr & Hn1 & Hn1p & Hn2 & Hn2p); [lia|].
    rewrite Hm. simpl.
    destruct (Z.ltb_spec t m), (Z.ltb_spec (max_latency acc) t); try lia.
    + exists t, (Z.succ c), n2.
      split_and!; try done; try lia. by rewrite Hother by lia.
    + destruct (decide (m = t)) as [->|Hmt].
      * exists t, (Z.succ c), (Z.succ c). split_and!; try done; lia.
      * exists m, n1, (Z.succ c). split_and!; try done; try lia.
        by rewrite Hother by lia.
    + destruct (decide (m = t)) as [->|Hmt]; [|destruct (decide (max_latency acc = t)) as [Hxt|Hxt]].
      * destruct (decide (max_latency acc = t)) as [Hxt|Hxt].
        -- exists t, (Z.succ c), (Z.succ c). rewrite Hxt. split_and!; try done; lia.
        -- exists t, (Z.succ c), n2. split_and!; try done; try lia.
           by rewrite Hother by lia.
      * exists m, n1, (Z.succ c). rewrite Hxt. split_and!; try done; try lia.
        by rewrite Hother by lia.
      * exists m, n1, n2. split_and!; try done; try lia;
          by rewrite Hother by lia.
Qed.

Lemma worker_loop_bracketed (fuel : nat) (executor : nat -> call)
    (start duration : Z) (tl tl' : timeline) (acc r : WorkerResult) :
  bracketed acc ->
  worker_loop fuel executor start duration tl acc = (Ok r, tl') ->
  bracketed r.
Proof.
  revert tl acc. induction fuel as [|fuel IH]; intros tl acc Hacc; simpl.
  - destruct (_ <? _); [discriminate|]. by intros [= <- <-].
  - destruct (_ <? _); [|by intros [= <- <-]].
    destruct (executor (calls tl)) as [cost [n|e]]; [|discriminate].
    destruct (record_sample acc n _) as [acc1|e|] eqn:Hrec; [|discriminate..].
    apply IH. eapply record_sample_bracketed; [|exact Hacc|exact Hrec].
    apply req_time_of_nonneg. simpl. lia.
Qed.

Lemma bracketed_init (n : nat) : bracketed (worker_init (replicate n 0)).
Proof.
  unfold bracketed. simpl.
  assert (forall (i : nat) (x : Z), replicate n 0 !! i = Some x -> 0 < x -> False)
    as Hcells.
  { intros i x Hi Hx. apply lookup_replicate in Hi as [-> _]. lia. }
  split_and!; try done; try lia;
    try (apply Forall_replicate; lia);
    intros i x Hi Hx; destruct (Hcells i x Hi Hx).
Qed.

Lemma worker_loop_counts (fuel : nat) (executor : nat -> call)
    (start duration : Z) (tl tl' : timeline) (acc r : WorkerResult) :
  worker_loop fuel executor start duration tl acc = (Ok r, tl') ->
  (calls tl <= calls tl')%nat /\
  queries r = queries acc + Z.of_nat (calls tl' - calls tl) /\
  rows r = rows acc + sum_over (answered_rows executor) (calls tl) (calls tl' - calls tl) /\
  now tl' = now tl + sum_over (call_cost executor) (calls tl) (calls tl' - calls tl) /\
  duration * ns_per_s <= now tl' - start /\
  (forall k, (calls tl <= k < calls tl')%nat -> exists n, (executor k).2 = Rows n).
Proof.
  revert tl acc. induction fuel as [|fuel IH]; intros tl acc; simpl.
  - destruct (Z.ltb_spec (now tl - start) (duration * ns_per_s)); [discriminate|].
    intros [= <- <-]. rewrite Nat.sub_diag. unfold sum_over. simpl.
    split_and!; try lia; intros k Hk; lia.
  - destruct (Z.ltb_spec (now tl - start) (duration * ns_per_s)).
    2:{ intros [= <- <-]. rewrite Nat.sub_diag. unfold sum_over. simpl.
        split_and!; try lia; intros k Hk; lia. }
    destruct (executor (calls tl)) as [cost [n|e]] eqn:Hex; [|discriminate].
    destruct (record_sample acc n _) as [acc1|e|] eqn:Hrec; [|discriminate..].
    intros Hloop. apply IH in Hloop as (Hle & Hq & Hr & Hn & Hd & Hall).
    apply record_sample_Ok in Hrec as (Hq1 & Hr1 & _). simpl in *.
    assert (calls tl' - calls tl = S (calls tl' - S (calls tl)))%nat as -> by lia.
    unfold sum_over in *. cbn [seq fmap list_fmap foldr].
    unfold answered_rows at 1, call_cost at 1. rewrite Hex. simpl.
    split_and!; try lia.
    intros k Hk. destruct (decide (k = calls tl)) as [->|Hne].
    + rewrite Hex. eauto.
    + apply Hall. lia.
Qed.

(** ** What a pass returns *)

Lemma first_raise_Ok {A} (outs : list (res A)) (l : list A) :
  first_raise outs = Ok l -> outs = Ok <$> l.
Proof.
  revert l. induction outs as [|[a|e|] outs IH]; intros l; simpl; try discriminate.
  - by intros [= <-].
  - destruct (first_raise outs) as [l'|e|]; [|discriminate..].
    intros [= <-]. by rewrite (IH l').
Qed.

Lemma gather_Ok {A} (outs : list (res A)) (l : list A) :
  gather outs = Ok l -> outs = Ok <$> l.
Proof.
  unfold gather. destruct (existsb _ _); [discriminate|]. apply first_raise_Ok.
Qed.

Lemma barrier_ge (start : Z) (ends : list timeline) :
  start <= barrier start ends /\
  forall tl, tl ∈ ends -> now tl <= barrier start ends.
Proof.
  unfold barrier. induction ends as [|tl0 ends [IH1 IH2]]; csimpl.
  - split; [lia|]. intros tl Htl. by apply elem_of_nil in Htl.
  - split; [lia|]. intros tl [->|Htl]%elem_of_cons; [lia|].
    specialize (IH2 tl Htl). lia.
Qed.

Section PassResults.

Variable W : World.
Variable fuel : nat.
Variable args : Args.
Variable executor : executor_id.
Variable is_async : bool.
Variable query : string.
Variable query_args : list pyval.
Variable conns : list nat.

Local Abbreviation do_run :=
  (_do_run W fuel args executor is_async query query_args conns).
Local Abbreviation a_task :=
  (task W fuel args executor is_async query query_args).

(** The results of a pass are those of its tasks, in order, and its span
    is the time to the last of them. *)
Lemma _do_run_Ok (run_duration span : Z) (results : list WorkerResult)
    (s s' : State) :
  do_run run_duration s = (Ok (results, span), s') ->
  (fun conn => (a_task s run_duration conn).1) <$> take (args_concurrency args) conns
  = Ok <$> results /\
  span = clock s' - clock s /\
  clock s' = barrier (clock s)
               ((fun conn => (a_task s run_duration conn).2)
                  <$> take (args_concurrency args) conns) /\
  log s' = log s.
Proof.
  unfold _do_run. destruct (negb is_async && _); [discriminate|].
  destruct (gather _) as [l|e|] eqn:Hg; [|discriminate..].
  intros [= <- <- <-]. apply gather_Ok in Hg.
  rewrite <- !list_fmap_compose in *. done.
Qed.

Lemma task_Ok (s : State) (run_duration : Z) (conn : nat) (r : WorkerResult) :
  (a_task s run_duration conn).1 = Ok r ->
  Z.of_nat (length (latency_stats r)) = args_timeout args * 1000 * 100 /\
  hist_total (latency_stats r) = queries r /\
  bracketed r /\
  (if is_async then args_duration args else run_duration) * ns_per_s
  <= now (a_task s run_duration conn).2 - clock s.
Proof.
  unfold task.
  set (tl := {| now := clock s; calls := served s conn |}).
  assert (forall d, (worker fuel (execute W executor conn query query_args)
                       (clock s) d (args_timeout args * 1000) tl).1 = Ok r ->
          Z.of_nat (length (latency_stats r)) = args_timeout args * 1000 * 100 /\
          hist_total (latency_stats r) = queries r /\ bracketed r /\
          d * ns_per_s
          <= now (worker fuel (execute W executor conn query query_args)
                    (clock s) d (args_timeout args * 1000) tl).2 - clock s) as Hw.
  { intros d Hd.
    destruct (worker _ _ _ d _ tl) as [r' tl'] eqn:E. simpl in Hd. subst r'.
    pose proof (worker_Ok _ _ _ _ _ _ _ _ E) as (_ & Hlen & Htot).
    unfold worker in E.
    destruct (np_zeros _) as [h|e|] eqn:Hz; [|discriminate..].
    apply np_zeros_Ok in Hz as [_ ->].
    pose proof (worker_loop_bracketed _ _ _ _ _ _ _ _ (bracketed_init _) E) as Hb.
    apply worker_loop_counts in E as (_ & _ & _ & _ & Hdl & _).
    simpl. split_and!; try done; lia. }
  destruct is_async; [apply Hw|]. rewrite sync_worker_is_worker. apply Hw.
Qed.

Lemma fmap_Ok_inv {A B} (f : A -> res B) (l : list A) (rs : list B) :
  f <$> l = Ok <$> rs ->
  Forall (fun r => exists x, x ∈ l /\ f x = Ok r) rs /\ length rs = length l.
Proof.
  revert l. induction rs as [|r rs IH]; intros [|x l]; csimpl; try discriminate.
  - done.
  - intros [= Hx Hl]. destruct (IH l Hl) as [Hall Hlen]. split; [|by rewrite Hlen].
    constructor.
    + exists x. split; [left|done].
    + eapply Forall_impl; [exact Hall|]. intros r' (y & Hy & E).
      exists y. split; [by right|done].
Qed.

Lemma _do_run_results (run_duration span : Z) (results : list WorkerResult)
    (s s' : State) :
  do_run run_duration s = (Ok (results, span), s') ->
  Forall (fun r => exists conn, conn ∈ take (args_concurrency args) conns /\
                                (a_task s run_duration conn).1 = Ok r) results /\
  length results = length (take (args_concurrency args) conns).
Proof.
  intros H. apply _do_run_Ok in H as (H & _). by apply fmap_Ok_inv in H.
Qed.

End PassResults.

Lemma hist_total_zip_add (a b : list Z) :
  length a = length b ->
  hist_total (zip_with Z.add a b) = hist_total a + hist_total b.
Proof.
  unfold hist_total. revert b.
  induction a as [|x a IH]; intros [|y b]; simpl; try done; try lia.
  intros [= Hlen]. rewrite IH by done. lia.
Qed.

Lemma hist_total_sum_hist_nil (n : nat) : hist_total (sum_hist n []) = 0.
Proof.
  unfold sum_hist, hist_total. generalize 0%nat.
  induction n as [|n IH]; intros k; csimpl; [done|]. rewrite IH. done.
Qed.

(** The total of the merged histogram is the sum of the totals. *)
Lemma hist_total_sum_hist (n : nat) (rs : list WorkerResult) :
  same_cells n rs ->
  hist_total (sum_hist n rs)
  = foldr Z.add 0 ((fun r => hist_total (latency_stats r)) <$> rs).
Proof.
  induction rs as [|r rs IH] using rev_ind; intros Hall.
  - apply hist_total_sum_hist_nil.
  - apply Forall_app in Hall as [Hrs Hr]. rewrite Forall_singleton in Hr.
    rewrite <- sum_hist_snoc by done.
    rewrite hist_total_zip_add by (by rewrite sum_hist_length).
    rewrite IH by done. rewrite fmap_app. csimpl.
    rewrite (foldr_snoc Z.add 0); [lia|lia..].
Qed.

(** ** What a run that ends well has done *)

Lemma try_finally_Ok {A} (body : M A) (fin : M unit) (s s' : State) (a : A) :
  try_finally body fin s = (Ok a, s') ->
  exists s1, body s = (Ok a, s1) /\ fin s1 = (Ok tt, s').
Proof.
  unfold try_finally. destruct (body s) as [[x|e|] s1]; [| |discriminate].
  - destruct (fin s1) as [[[]|e|] s2] eqn:Hfin; [|discriminate..].
    intros [= <- <-]. exists s1. done.
  - destruct (fin s1) as [[[]|e'|] s2]; discriminate.
Qed.

Lemma bind_Ok {A B} (m : M A) (k : A -> M B) (s s' : State) (b : B) :
  bind m k s = (Ok b, s') -> exists a s1, m s = (Ok a, s1) /\ k a s1 = (Ok b, s').
Proof.
  unfold bind. destruct (m s) as [[a|e|] s1] eqn:Hm; [|discriminate..]. eauto.
Qed.

Section Measured.

Variable W : World.
Variable fuel : nat.
Variable args : Args.
Variable executor : executor_id.
Variable is_async : bool.
Variable query : string.
Variable query_args : list pyval.
Variable conns : list nat.

Local Abbreviation do_run :=
  (_do_run W fuel args executor is_async query query_args conns).
Local Abbreviation two_passes :=
  (both_passes W fuel args executor is_async query query_args conns).
Local Abbreviation measured :=
  (measure W fuel args executor is_async query query_args conns).

Lemma both_passes_Ok (results : list WorkerResult) (span : Z) (s s' : State) :
  two_passes s = (Ok (results, span), s') ->
  exists s1, do_run (args_duration args) s1 = (Ok (results, span), s') /\
             log s1 = log s.
Proof.
  unfold both_passes. intros (u & s1 & Hwarm & Hrun)%bind_Ok.
  exists s1. split; [done|].
  destruct (bool_decide _); [by injection Hwarm as _ <-|].
  apply bind_Ok in Hwarm as (x & s2 & Hwarm & [= _ <-]).
  pose proof (_do_run_log W fuel args executor is_async query query_args conns
                (args_warmup_time args) s) as Hlog.
  by rewrite Hwarm in Hlog.
Qed.

(** A report is made of the merge of the results of the measured pass. *)
Lemma measure_Ok (is_copy admin_conn : bool) (data : Report) (s s' : State) :
  measured is_copy admin_conn s = (Ok data, s') ->
  exists results n s1 s2,
    do_run (args_duration args) s1 = (Ok (results, r_duration data), s2) /\
    log s1 = log s /\
    results <> [] /\
    n = Z.to_nat (args_timeout args * 1000 * 100) /\
    same_cells n results /\
    Forall (fun r => hist_total (latency_stats r) = queries r /\ bracketed r) results /\
    args_duration args * ns_per_s <= r_duration data /\
    r_queries data = sum_queries results /\
    r_rows data = sum_rows results /\
    r_latency_stats data = sum_hist n results /\
    r_min_latency data = least_min results /\
    r_max_latency data = greatest_max results /\
    r_output_format data = args_output_format args.
Proof.
  unfold measure. intros ([results span] & s3 & Hpasses & Hrest)%bind_Ok.
  apply try_finally_Ok in Hpasses as (s2 & Hboth & _).
  apply both_passes_Ok in Hboth as (s1 & Hrun & Hlog).
  apply bind_Ok in Hrest as (a & s4 & Hagg & Hrest).
  unfold lift in Hagg. injection Hagg as Hagg <-.
  apply bind_Ok in Hrest as (u & s5 & _ & Hdata).
  destruct (a_latency_stats a) as [h|] eqn:Hh; [|discriminate].
  injection Hdata as <- <-. cbn [r_duration r_queries r_rows r_latency_stats
    r_min_latency r_max_latency r_output_format].
  pose proof (_do_run_results _ _ _ _ _ _ _ _ _ _ _ _ _ Hrun) as [Hres _].
  pose proof (_do_run_Ok _ _ _ _ _ _ _ _ _ _ _ _ _ Hrun) as (_ & Hspan & Hclock & _).
  set (n := Z.to_nat (args_timeout args * 1000 * 100)).
  assert (Forall (fun r =>
            length (latency_stats r) = n /\
            hist_total (latency_stats r) = queries r /\ bracketed r /\
            args_duration args * ns_per_s <= span) results) as Hall.
  { eapply Forall_impl; [exact Hres|]. intros r (conn & Hin & Hr).
    pose proof (task_Ok _ _ _ _ _ _ _ _ _ _ _ Hr) as (Hlen & Htot & Hb & Hdl).
    split_and!; [unfold n; lia|done|done|].
    assert (now (task W fuel args executor is_async query query_args s1
                   (args_duration args) conn).2 <= clock s2) as Hle.
    { rewrite Hclock. apply barrier_ge. apply list_elem_of_fmap. eauto. }
    destruct is_async; lia. }
  assert (same_cells n results) as Hcells
    by (eapply Forall_impl; [exact Hall|]; by intros r (? & _)).
  rewrite (aggregate_is_merge n results Hcells) in Hagg.
  destruct results as [|r0 results0]; [by injection Hagg as <-|].
  injection Hagg as <-. simpl in Hh. injection Hh as <-.
  exists (r0 :: results0), n, s1, s2. split_and!; try done.
  - eapply Forall_impl; [exact Hall|]. by intros r (_ & ? & ? & _).
  - apply Forall_cons in Hall as [(_ & _ & _ & ?) _]. done.
Qed.

End Measured.

Lemma printed_logged (s : State) (data : Report) :
  printed (log (logged s [Printed data])) = Some data.
Proof. unfold printed. simpl. by rewrite last_snoc. Qed.

(** A run that ends well has printed the report of its measured pass. *)
Lemma runner_Ok (W : World) (fuel : nat) (args : Args)
    (connector : connector_id) (executor : executor_id)
    (copy_executor : option executor_id) (is_async : bool) (arg_format : arg_format)
    (query : string) (query_args : list pyval) (setup teardown : option string)
    (u : unit) (s0 s' : State) :
  runner W fuel args connector executor copy_executor is_async arg_format
         query query_args setup teardown s0 = (Ok u, s') ->
  exists l s1 s2 s3 data,
    prologue W args connector executor copy_executor arg_format query query_args
             setup s0 = (Ok l, s1) /\
    measure W fuel args (l_executor l) is_async (l_query l) (l_query_args l)
            (l_conns l) (l_is_copy l) (l_admin_conn l) s1 = (Ok data, s2) /\
    run_teardown W (l_admin_conn l) teardown s2 = (Ok tt, s3) /\
    s' = logged s3 [Printed data].
Proof.
  unfold runner. intros (l & s1 & Hpro & Hrest)%bind_Ok.
  apply bind_Ok in Hrest as (data & s3 & Hguard & Hemit).
  apply try_finally_Ok in Hguard as (s2 & Hm & Htd).
  injection Hemit as _ <-. by exists l, s1, s2, s3, data.
Qed.

Lemma sum_positive_term {A} (f : A -> Z) (l : list A) :
  Forall (fun x => 0 <= f x) l ->
  0 < foldr Z.add 0 (f <$> l) ->
  exists x, x ∈ l /\ 0 < f x.
Proof.
  induction l as [|x l IH]; csimpl; [lia|].
  intros [Hx Hl]%Forall_cons Hsum.
  destruct (decide (0 < f x)) as [Hpos|Hnpos].
  - exists x. split; [left|done].
  - destruct IH as (y & Hy & Hfy); [done|lia|]. exists y. split; [by right|done].
Qed.

(** The merged bounds bracket the cells of the merged histogram that
    hold a sample. *)
Lemma merged_bracket (n : nat) (rs : list WorkerResult) (i : nat) (c : Z) :
  Forall bracketed rs ->
  sum_hist n rs !! i = Some c -> 0 < c ->
  lat_le (least_min rs) (Lat (Z.of_nat i)) /\ Z.of_nat i <= greatest_max rs.
Proof.
  intros Hall Hi Hc.
  assert (i < n)%nat as Hin
    by (apply lookup_lt_Some in Hi; by rewrite sum_hist_length in Hi).
  rewrite sum_hist_lookup in Hi by done. injection Hi as <-.
  unfold sum_cell in Hc.
  apply sum_positive_term in Hc as (r & Hr & Hcell).
  - rewrite Forall_forall in Hall.
    destruct (Hall r Hr) as (_ & _ & _ & Hcells & _).
    destruct (latency_stats r !! i) as [x|] eqn:E; simpl in Hcell; [|lia].
    destruct (Hcells i x E Hcell) as [Hlo Hhi].
    destruct (merge_bounds rs r Hr) as [Hmin Hmax]. split; [|lia].
    eapply lat_le_trans; [exact Hmin|exact Hlo].
  - eapply Forall_impl; [exact Hall|]. intros r (_ & _ & Hnn & _).
    destruct (latency_stats r !! i) as [x|] eqn:E; simpl; [|lia].
    rewrite Forall_forall in Hnn. apply Hnn. by apply list_elem_of_lookup_2 in E.
Qed.

(** ** Further properties of the sample loop *)

Lemma worker_bracketed (fuel : nat) (executor : nat -> call)
    (start duration timeout : Z) (tl tl' : timeline) (r : WorkerResult) :
  worker fuel executor start duration timeout tl = (Ok r, tl') -> bracketed r.
Proof.
  unfold worker. destruct (np_zeros _) as [h|e|] eqn:Hz; [|discriminate..].
  apply np_zeros_Ok in Hz as [_ ->].
  apply worker_loop_bracketed, bracketed_init.
Qed.

(** X1: in the tuple a worker returns, the greatest latency is not
    negative, every cell that holds a sample has its index between the
    least and the greatest latency, and when there are samples both
    bounds are the indices of cells that hold one; without a sample the
    least latency is still [inf] and the greatest 0. *)
Theorem worker_bounds_bracket_cells (fuel : nat) (executor : nat -> call)
    (start duration timeout : Z) (tl tl' : timeline) (r : WorkerResult) :
  worker fuel executor start duration timeout tl = (Ok r, tl') \/
  sync_worker fuel executor start duration timeout tl = (Ok r, tl') ->
  0 <= max_latency r /\
  (forall (i : nat) (n : Z),
     latency_stats r !! i = Some n -> 0 < n ->
     lat_le (min_latency r) (Lat (Z.of_nat i)) /\ Z.of_nat i <= max_latency r) /\
  (queries r = 0 -> min_latency r = LInf /\ max_latency r = 0) /\
  (0 < queries r ->
   exists m n1 n2,
     min_latency r = Lat m /\ 0 <= m <= max_latency r /\
     latency_stats r !! Z.to_nat m = Some n1 /\ 0 < n1 /\
     latency_stats r !! Z.to_nat (max_latency r) = Some n2 /\ 0 < n2).
Proof.
  intros [H|H]; [|rewrite sync_worker_is_worker in H];
    apply worker_bracketed in H as (_ & ? & _ & ? & ? & ?); done.
Qed.

Lemma worker_bounds_bracket_cells_witness :
  max_latency (value_of no_result slow_run.1) = 40000 /\
  exists m n1 n2,
    min_latency (value_of no_result slow_run.1) = Lat m /\
    0 <= m <= max_latency (value_of no_result slow_run.1) /\
    latency_stats (value_of no_result slow_run.1) !! Z.to_nat m = Some n1 /\
    0 < n1 /\
    latency_stats (value_of no_result slow_run.1)
      !! Z.to_nat (max_latency (value_of no_result slow_run.1)) = Some n2 /\
    0 < n2.
Proof.
  assert (is_ok slow_run.1 = true) as E by (vm_compute; reflexivity).
  split; [vm_compute; reflexivity|].
  apply (worker_bounds_bracket_cells 5 (fun _ => (slow, Rows 1)) 0 1 1000
           {| now := 0; calls := 0 |} slow_run.2 (value_of no_result slow_run.1)).
  - left. exact (is_ok_pair slow_run no_result E).
  - vm_compute. reflexivity.
Defined.

(** X2: a worker that returns has made [calls tl' - calls tl] calls, none
    of which raised; its queries are the number of those calls, its rows
    the rows they returned, its clock has advanced by the time they took
    at least, and it has not returned before the deadline. *)
Theorem worker_accounts_for_every_call (fuel : nat) (executor : nat -> call)
    (start duration timeout : Z) (tl tl' : timeline) (r : WorkerResult) :
  worker fuel executor start duration timeout tl = (Ok r, tl') \/
  sync_worker fuel executor start duration timeout tl = (Ok r, tl') ->
  (calls tl <= calls tl')%nat /\
  queries r = Z.of_nat (calls tl' - calls tl) /\
  rows r = sum_over (answered_rows executor) (calls tl) (calls tl' - calls tl) /\
  now tl + sum_over (call_cost executor) (calls tl) (calls tl' - calls tl) <= now tl' /\
  duration * ns_per_s <= now tl' - start /\
  (forall k, (calls tl <= k < calls tl')%nat -> exists n, (executor k).2 = Rows n).
Proof.
  intros H. assert (worker fuel executor start duration timeout tl = (Ok r, tl')) as Hw
    by (destruct H as [H|H]; [done|by rewrite sync_worker_is_worker in H]).
  clear H. unfold worker in Hw.
  destruct (np_zeros _) as [h|e|]; [|discriminate..].
  apply worker_loop_counts in Hw as (? & ? & ? & ? & ? & ?). simpl in *.
  split_and!; try done; lia.
Qed.

Lemma worker_accounts_for_every_call_witness :
  queries (value_of no_result slow_run.1) = Z.of_nat (calls slow_run.2 - 0) /\
  1 * ns_per_s <= now slow_run.2 - 0.
Proof.
  assert (is_ok slow_run.1 = true) as E by (vm_compute; reflexivity).
  destruct (worker_accounts_for_every_call 5 (fun _ => (slow, Rows 1)) 0 1 1000
              {| now := 0; calls := 0 |} slow_run.2 (value_of no_result slow_run.1))
    as (_ & Hq & _ & _ & Hd & _).
  - left. exact (is_ok_pair slow_run no_result E).
  - split; [exact Hq|exact Hd].
Defined.

(** X3: the sample loop ends.  Every call takes a nanosecond at least,
    so with as many turns of fuel as there are nanoseconds to the
    deadline a worker returns its tuple or raises. *)
Theorem sample_loop_ends (fuel : nat) (executor : nat -> call)
    (start duration timeout : Z) (tl : timeline) :
  (Z.to_nat (start + duration * ns_per_s - now tl) <= fuel)%nat ->
  (worker fuel executor start duration timeout tl).1 <> OutOfFuel /\
  (sync_worker fuel executor start duration timeout tl).1 <> OutOfFuel.
Proof.
  intros Hfuel.
  assert ((worker fuel executor start duration timeout tl).1 <> OutOfFuel) as H.
  { unfold worker, np_zeros. destruct (timeout * 100 <? 0); [done|].
    by apply worker_loop_ends. }
  split; exact H.
Qed.

Lemma sample_loop_ends_witness :
  (worker 3 (fun _ => (1%positive, Rows 1)) 0 1 1000
          {| now := 999999997; calls := 0 |}).1 <> OutOfFuel /\
  (sync_worker 3 (fun _ => (1%positive, Rows 1)) 0 1 1000
          {| now := 999999997; calls := 0 |}).1 <> OutOfFuel.
Proof.
  assert (Z.to_nat (0 + 1 * ns_per_s - now {| now := 999999997; calls := 0 |}) <= 3)%nat
    as Hfuel by (vm_compute; lia).
  exact (sample_loop_ends 3 (fun _ => (1%positive, Rows 1)) 0 1 1000
           {| now := 999999997; calls := 0 |} Hfuel).
Defined.

(** ** Passes and reports *)

Lemma is_ok_pair2 {A B C} (x : res (A * B) * C) (d : A * B) :
  is_ok x.1 = true -> x = (Ok ((value_of d x.1).1, (value_of d x.1).2), x.2).
Proof. destruct x as [[[a b]|e|] c]; simpl; congruence. Qed.

(** X4: the results of one pass always merge.  They are as many as the
    connections used, their histograms all have
    [args.timeout * 1000 * 100] cells, and the merge loop does not
    raise on them: it gives the merge of the specification. *)
Theorem pass_results_always_merge (W : World) (fuel : nat) (args : Args)
    (executor : executor_id) (is_async : bool) (query : string)
    (query_args : list pyval) (conns : list nat) (run_duration span : Z)
    (results : list WorkerResult) (s s' : State) :
  _do_run W fuel args executor is_async query query_args conns run_duration s
  = (Ok (results, span), s') ->
  same_cells (Z.to_nat (args_timeout args * 1000 * 100)) results /\
  length results = length (take (args_concurrency args) conns) /\
  aggregate results
  = Ok (match results with
        | [] => aggregate_init
        | _ :: _ => merge_spec (Z.to_nat (args_timeout args * 1000 * 100)) results
        end).
Proof.
  intros Hrun.
  pose proof (_do_run_results _ _ _ _ _ _ _ _ _ _ _ _ _ Hrun) as [Hres Hlen].
  assert (same_cells (Z.to_nat (args_timeout args * 1000 * 100)) results) as Hcells.
  { eapply Forall_impl; [exact Hres|]. intros r (conn & _ & Hr).
    apply task_Ok in Hr as (Hl & _). lia. }
  split_and!; [done|done|]. by apply aggregate_is_merge.
Qed.

Lemma pass_results_always_merge_witness :
  is_ok (aggregate (value_of ([], 0) fine_pass.1).1) = true.
Proof.
  assert (is_ok fine_pass.1 = true) as E by (vm_compute; reflexivity).
  destruct (pass_results_always_merge (stub_world half_s 0) 10 one_thread
              psycopg_execute false "SELECT 1" [] [0%nat] 1
              (value_of ([], 0) fine_pass.1).2 (value_of ([], 0) fine_pass.1).1
              state0 fine_pass.2 (is_ok_pair2 fine_pass ([], 0) E))
    as (_ & _ & Hagg).
  rewrite Hagg. reflexivity.
Defined.

Lemma ok_unit_pair {C} (x : res unit * C) :
  is_ok x.1 = true -> x = (Ok tt, x.2).
Proof. destruct x as [[[]|e|] c]; simpl; congruence. Qed.

(** The report of a run that ended well, and the results it merges. *)
Lemma runner_report (W : World) (fuel : nat) (args : Args)
    (connector : connector_id) (executor : executor_id)
    (copy_executor : option executor_id) (is_async : bool) (arg_format : arg_format)
    (query : string) (query_args : list pyval) (setup teardown : option string)
    (u : unit) (s0 s' : State) :
  runner W fuel args connector executor copy_executor is_async arg_format
         query query_args setup teardown s0 = (Ok u, s') ->
  exists data results,
    printed (log s') = Some data /\
    results <> [] /\
    Forall (fun r => Z.of_nat (length (latency_stats r)) = args_timeout args * 1000 * 100 /\
                     hist_total (latency_stats r) = queries r /\ bracketed r) results /\
    args_duration args * ns_per_s <= r_duration data /\
    r_queries data = sum_queries results /\
    r_rows data = sum_rows results /\
    r_latency_stats data
    = sum_hist (Z.to_nat (args_timeout args * 1000 * 100)) results /\
    r_min_latency data = least_min results /\
    r_max_latency data = greatest_max results.
Proof.
  intros (l & s1 & s2 & s3 & data & _ & Hm & _ & ->)%runner_Ok.
  apply measure_Ok in Hm
    as (results & n & sa & sb & Hrun & _ & Hne & -> & _ & Hall & Hd & Hq & Hr & Hh
        & Hmin & Hmax & _).
  exists data, results. rewrite printed_logged. split_and!; try done.
  pose proof (_do_run_results _ _ _ _ _ _ _ _ _ _ _ _ _ Hrun) as [Hres _].
  rewrite Forall_forall in Hres, Hall |- *. intros r Hr'.
  destruct (Hres r Hr') as (conn & _ & Ht). apply task_Ok in Ht as (Hl & _).
  destruct (Hall r Hr') as [? ?]. done.
Qed.

(** X5: the report a run prints adds up: the cells of [latency_stats]
    sum to [queries], none of them is negative, there are
    [args.timeout * 1000 * 100] of them, and [queries] is not negative. *)
Theorem printed_report_adds_up (W : World) (fuel : nat) (args : Args)
    (connector : connector_id) (executor : executor_id)
    (copy_executor : option executor_id) (is_async : bool) (arg_format : arg_format)
    (query : string) (query_args : list pyval) (setup teardown : option string)
    (u : unit) (s0 s' : State) :
  runner W fuel args connector executor copy_executor is_async arg_format
         query query_args setup teardown s0 = (Ok u, s') ->
  exists data,
    printed (log s') = Some data /\
    0 <= r_queries data /\
    hist_total (r_latency_stats data) = r_queries data /\
    Z.of_nat (length (r_latency_stats data)) = args_timeout args * 1000 * 100 /\
    Forall (fun n => 0 <= n) (r_latency_stats data).
Proof.
  intros (data & results & Hp & Hne & Hall & _ & Hq & _ & Hh & _)%runner_report.
  exists data. split; [done|].
  set (n := Z.to_nat (args_timeout args * 1000 * 100)) in *.
  assert (same_cells n results) as Hcells.
  { eapply Forall_impl; [exact Hall|]. intros r (Hl & _). unfold n. lia. }
  rewrite Hq, Hh, sum_hist_length.
  assert (foldr Z.add 0 ((fun r => hist_total (latency_stats r)) <$> results)
          = sum_queries results) as Htot.
  { unfold sum_queries. clear -Hall. induction Hall as [|r rs (_ & Hr & _) _ IH]; csimpl;
      [done|]. by rewrite IH, Hr. }
  split_and!.
  - unfold sum_queries. clear -Hall.
    induction Hall as [|r rs (_ & _ & Hr & _) _ IH]; csimpl; lia.
  - by rewrite hist_total_sum_hist.
  - destruct results as [|r rs]; [done|].
    apply Forall_cons in Hall as [(Hl & _) _]. unfold n. lia.
  - apply Forall_forall. intros c Hc. apply list_elem_of_lookup in Hc as [i Hi].
    assert (i < n)%nat as Hin
      by (apply lookup_lt_Some in Hi; by rewrite sum_hist_length in Hi).
    rewrite sum_hist_lookup in Hi by done. injection Hi as <-.
    unfold sum_cell. clear -Hall.
    induction Hall as [|r rs (_ & _ & Hb) _ IH]; csimpl; [lia|].
    destruct Hb as (_ & _ & Hnn & _).
    destruct (latency_stats r !! i) as [x|] eqn:E; simpl; [|lia].
    rewrite Forall_forall in Hnn. apply list_elem_of_lookup_2, Hnn in E. lia.
Qed.

Lemma printed_report_adds_up_witness :
  exists data,
    printed (log fine_run.2) = Some data /\
    0 <= r_queries data /\
    hist_total (r_latency_stats data) = r_queries data /\
    Z.of_nat (length (r_latency_stats data)) = args_timeout one_thread * 1000 * 100 /\
    Forall (fun n => 0 <= n) (r_latency_stats data).
Proof.
  assert (is_ok fine_run.1 = true) as E by (vm_compute; reflexivity).
  exact (printed_report_adds_up (stub_world half_s 0) 10 one_thread psycopg_connect
           psycopg_execute (Some psycopg_copy) false python "SELECT 1" [] None None
           tt state0 fine_run.2 (ok_unit_pair fine_run E)).
Defined.

(** X6: the duration a run reports is never shorter than the duration
    it was asked to measure. *)
Theorem reported_duration_covers_request (W : World) (fuel : nat) (args : Args)
    (connector : connector_id) (executor : executor_id)
    (copy_executor : option executor_id) (is_async : bool) (arg_format : arg_format)
    (query : string) (query_args : list pyval) (setup teardown : option string)
    (u : unit) (s0 s' : State) :
  runner W fuel args connector executor copy_executor is_async arg_format
         query query_args setup teardown s0 = (Ok u, s') ->
  exists data,
    printed (log s') = Some data /\
    args_duration args * ns_per_s <= r_duration data.
Proof.
  intros (data & results & Hp & _ & _ & Hd & _)%runner_report. by exists data.
Qed.

Lemma reported_duration_covers_request_witness :
  exists data,
    printed (log fine_run.2) = Some data /\
    args_duration one_thread * ns_per_s <= r_duration data.
Proof.
  assert (is_ok fine_run.1 = true) as E by (vm_compute; reflexivity).
  exact (reported_duration_covers_request (stub_world half_s 0) 10 one_thread
           psycopg_connect psycopg_execute (Some psycopg_copy) false python
           "SELECT 1" [] None None tt state0 fine_run.2 (ok_unit_pair fine_run E)).
Defined.

(** X7: in the report a run prints, every cell of [latency_stats] that
    holds a sample has its index between [min_latency] and
    [max_latency]. *)
Theorem reported_bounds_bracket_cells (W : World) (fuel : nat) (args : Args)
    (connector : connector_id) (executor : executor_id)
    (copy_executor : option executor_id) (is_async : bool) (arg_format : arg_format)
    (query : string) (query_args : list pyval) (setup teardown : option string)
    (u : unit) (s0 s' : State) :
  runner W fuel args connector executor copy_executor is_async arg_format
         query query_args setup teardown s0 = (Ok u, s') ->
  exists data,
    printed (log s') = Some data /\
    forall (i : nat) (n : Z),
      r_latency_stats data !! i = Some n -> 0 < n ->
      lat_le (r_min_latency data) (Lat (Z.of_nat i)) /\
      Z.of_nat i <= r_max_latency data.
Proof.
  intros (data & results & Hp & _ & Hall & _ & _ & _ & Hh & Hmin & Hmax)%runner_report.
  exists data. split; [done|]. intros i n Hi Hn. rewrite Hh in Hi. rewrite Hmin, Hmax.
  eapply merged_bracket; [|exact Hi|exact Hn].
  eapply Forall_impl; [exact Hall|]. by intros r (_ & _ & ?).
Qed.

Lemma reported_bounds_bracket_cells_witness :
  exists data,
    printed (log fine_run.2) = Some data /\
    forall (i : nat) (n : Z),
      r_latency_stats data !! i = Some n -> 0 < n ->
      lat_le (r_min_latency data) (Lat (Z.of_nat i)) /\
      Z.of_nat i <= r_max_latency data.
Proof.
  assert (is_ok fine_run.1 = true) as E by (vm_compute; reflexivity).
  exact (reported_bounds_bracket_cells (stub_world half_s 0) 10 one_thread
           psycopg_connect psycopg_execute (Some psycopg_copy) false python
           "SELECT 1" [] None None tt state0 fine_run.2 (ok_unit_pair fine_run E)).
Defined.

(** ** The order of the events *)

Lemma close_all_Ok_inv (W : World) (conns : list nat) (u : unit) (s s' : State) :
  close_all W conns s = (Ok u, s') -> s' = logged s (Closed <$> conns).
Proof.
  revert s. induction conns as [|conn conns IH]; intros s; simpl.
  - intros [= _ <-]. by rewrite logged_nil.
  - intros ([] & s1 & Heff & Hrest)%bind_Ok.
    apply effect_Ok in Heff as [_ ->]. apply IH in Hrest as ->.
    by rewrite logged_logged.
Qed.

Lemma lift_Ok {A} (r : res A) (a : A) (s s' : State) :
  lift r s = (Ok a, s') -> r = Ok a /\ s' = s.
Proof. unfold lift. by intros [= -> ->]. Qed.

Lemma post_check_Ok_inv (W : World) (query_args : list pyval) (admin_conn : bool)
    (queries : Z) (u : unit) (s s' : State) :
  post_check W query_args admin_conn queries s = (Ok u, s') ->
  exists table rowcount, s' = logged s [AdminCounted table; StderrRowcount rowcount].
Proof.
  unfold post_check. destruct (last query_args) as [copyargs|]; [|discriminate].
  unfold on_admin_conn. destruct admin_conn; [|discriminate].
  intros (table & s1 & [_ ->]%lift_Ok & Hrest)%bind_Ok.
  destruct table as [| | |tabname| |]; try discriminate.
  apply bind_Ok in Hrest as (rowcount & s1 & [_ ->]%lift_Ok & Hrest).
  apply bind_Ok in Hrest as ([] & s1 & [= <-] & Hrest).
  apply bind_Ok in Hrest as ([] & s2 & [= <-] & Hrest).
  destruct query_args as [|payload rest]; [discriminate|].
  apply bind_Ok in Hrest as (n & s3 & [_ ->]%lift_Ok & Hrest).
  destruct (rowcount <? n * queries); [discriminate|].
  injection Hrest as _ <-. exists tabname, rowcount. by rewrite logged_logged.
Qed.

Lemma run_teardown_Ok_inv (W : World) (admin_conn : bool) (teardown : option string)
    (u : unit) (s s' : State) :
  run_teardown W admin_conn teardown s = (Ok u, s') ->
  s' = logged s (teardown_events teardown).
Proof.
  unfold run_teardown, teardown_events. destruct teardown as [stmt|].
  - destruct (truthy (Some stmt)).
    + unfold on_admin_conn. destruct admin_conn; [|discriminate].
      by intros [_ ->]%effect_Ok.
    + intros [= _ <-]. by rewrite logged_nil.
  - intros [= _ <-]. by rewrite logged_nil.
Qed.

Lemma measure_Ok_log (W : World) (fuel : nat) (args : Args) (executor : executor_id)
    (is_async : bool) (query : string) (query_args : list pyval) (conns : list nat)
    (is_copy admin_conn : bool) (data : Report) (s s' : State) :
  measure W fuel args executor is_async query query_args conns is_copy admin_conn s
  = (Ok data, s') ->
  exists check,
    log s' = log s ++ (Closed <$> conns) ++ check /\ is_check is_copy check.
Proof.
  unfold measure. intros ([results span] & s3 & Hpasses & Hrest)%bind_Ok.
  apply try_finally_Ok in Hpasses as (s2 & Hboth & Hclose).
  apply close_all_Ok_inv in Hclose as ->.
  pose proof (both_passes_log W fuel args executor is_async query query_args conns s)
    as Hlog. rewrite Hboth in Hlog. simpl in Hlog.
  apply bind_Ok in Hrest as (a & s4 & [_ ->]%lift_Ok & Hrest).
  apply bind_Ok in Hrest as ([] & s5 & Hcheck & Hdata).
  destruct (a_latency_stats a); [|discriminate]. injection Hdata as _ <-.
  unfold is_check. destruct is_copy.
  - apply post_check_Ok_inv in Hcheck as (table & rowcount & ->).
    exists [AdminCounted table; StderrRowcount rowcount]. simpl.
    split; [|eauto]. by rewrite Hlog, <- app_assoc.
  - injection Hcheck as <-. exists []. simpl. by rewrite Hlog, app_nil_r.
Qed.

(** X8: a run that ends normally has done, in this order and nothing
    else: opened each of the [concurrency] connections, run the set-up
    statement on the administrative connection, closed each connection,
    counted the rows of the table for a COPY job, run the tear-down
    statement, and printed one report. *)
Theorem successful_run_events (W : World) (fuel : nat) (args : Args)
    (connector : connector_id) (executor : executor_id)
    (copy_executor : option executor_id) (is_async : bool) (arg_format : arg_format)
    (query : string) (query_args : list pyval) (setup teardown : option string)
    (u : unit) (s0 s' : State) :
  runner W fuel args connector executor copy_executor is_async arg_format
         query query_args setup teardown s0 = (Ok u, s') ->
  exists data check,
    log s' = log s0
               ++ (Connected <$> seq 0 (args_concurrency args))
               ++ setup_events setup
               ++ (Closed <$> seq 0 (args_concurrency args))
               ++ check
               ++ teardown_events teardown
               ++ [Printed data] /\
    is_check (startswith_COPY (match arg_format with
                               | python => re_sub query
                               | native => query
                               end)) check.
Proof.
  intros (l & s1 & s2 & s3 & data & Hpro & Hm & Htd & ->)%runner_Ok.
  pose proof (prologue_Ok _ _ _ _ _ _ _ _ _ _ _ _ Hpro) as (Hconns & _ & ->).
  assert (l_is_copy l = startswith_COPY (match arg_format with
                                         | python => re_sub query
                                         | native => query
                                         end)) as Hcopy.
  { unfold prologue in Hpro.
    apply bind_Ok in Hpro as ([ex qa] & sa & _ & Hpro).
    apply bind_Ok in Hpro as (cs & sb & _ & Hpro).
    apply bind_Ok in Hpro as (ad & sc & _ & Hpro).
    by injection Hpro as <-. }
  apply measure_Ok_log in Hm as (check & Hlog & Hcheck).
  apply run_teardown_Ok_inv in Htd as ->.
  exists data, check. rewrite <- Hcopy. split; [|done].
  simpl. rewrite Hlog, Hconns. simpl. by rewrite <- !app_assoc.
Qed.

Lemma successful_run_events_witness :
  exists data check,
    log fine_run.2 = log state0
               ++ (Connected <$> seq 0 (args_concurrency one_thread))
               ++ setup_events None
               ++ (Closed <$> seq 0 (args_concurrency one_thread))
               ++ check
               ++ teardown_events None
               ++ [Printed data] /\
    is_check (startswith_COPY (re_sub "SELECT 1")) check.
Proof.
  assert (is_ok fine_run.1 = true) as E by (vm_compute; reflexivity).
  exact (successful_run_events (stub_world half_s 0) 10 one_thread psycopg_connect
           psycopg_execute (Some psycopg_copy) false python "SELECT 1" [] None None
           tt state0 fine_run.2 (ok_unit_pair fine_run E)).
Defined.

(** ** Release on every path *)

Lemma quietly_here {A} (s : State) (r : res A) :
  r <> OutOfFuel -> quietly s (r, s).
Proof. intros Hr. split; [done|]. exists []. by rewrite logged_nil. Qed.

Lemma quietly_logged {A} (s : State) (evs : list event) (out : res A * State) :
  Forall (fun e => is_conn_event e = false) evs ->
  quietly (logged s evs) out -> quietly s out.
Proof.
  intros Hevs [Hne (tail & E & Htail)]. split; [done|].
  exists (evs ++ tail). rewrite E, logged_logged. split; [done|]. by apply Forall_app.
Qed.

Lemma post_check_quietly (W : World) (query_args : list pyval) (admin_conn : bool)
    (queries : Z) (s : State) :
  quietly s (post_check W query_args admin_conn queries s).
Proof.
  unfold post_check. destruct (last query_args) as [copyargs|]; [|by apply quietly_here].
  unfold on_admin_conn. destruct admin_conn; [|by apply quietly_here].
  unfold bind at 1, lift at 1, subscript.
  destruct copyargs as [| | | | |d]; try by apply quietly_here.
  destruct (dict_get d "table") as [table|]; [|by apply quietly_here].
  destruct table as [| | |tabname| |]; try by apply quietly_here.
  unfold bind at 1, lift at 1.
  destruct (admin_fetchval W tabname) as [rowcount|e]; [|by apply quietly_here].
  unfold bind at 1 2, emit. rewrite logged_logged.
  apply (quietly_logged s [AdminCounted tabname; StderrRowcount rowcount]);
    [by repeat constructor|].
  destruct query_args as [|payload rest]; [by apply quietly_here|].
  unfold bind, lift, py_len.
  destruct payload; try by apply quietly_here.
  all: destruct (rowcount <? _); by apply quietly_here.
Qed.

Lemma run_teardown_quietly (W : World) (admin_conn : bool) (teardown : option string)
    (s : State) :
  quietly s (run_teardown W admin_conn teardown s).
Proof.
  unfold run_teardown. destruct teardown as [stmt|]; [|by apply quietly_here].
  destruct (truthy (Some stmt)); [|by apply quietly_here].
  unfold on_admin_conn. destruct admin_conn; [|by apply quietly_here].
  unfold effect. destruct (admin_execute W stmt); [by apply quietly_here|].
  unfold emit. apply (quietly_logged s [AdminExecuted stmt]); [by repeat constructor|].
  by apply quietly_here.
Qed.

Lemma try_finally_quietly {A} (body : M A) (fin : M unit) (s s1 : State) :
  quietly s1 (body s) ->
  (forall s2, quietly s2 (fin s2)) ->
  quietly s1 (try_finally body fin s).
Proof.
  intros [Hne (tail & E & Htail)] Hfin. unfold try_finally.
  destruct (body s) as [[a|e|] s2]; simpl in *; [| |done]; subst s2;
    apply (quietly_logged s1 tail); try done;
    destruct (Hfin (logged s1 tail)) as [Hne' (tail' & E' & Htail')];
    destruct (fin (logged s1 tail)) as [[[]|e'|] s3]; simpl in *; try done;
    (split; [done|eauto]).
Qed.

(** Once the passes have ended, the connections are closed and what
    follows neither opens nor closes one. *)
Lemma measure_releases (W : World) (fuel : nat) (args : Args) (executor : executor_id)
    (is_async : bool) (query : string) (query_args : list pyval) (conns : list nat)
    (is_copy admin_conn : bool) (s : State) :
  (enough_fuel args <= fuel)%nat ->
  (forall conn, conn ∈ conns -> close W conn = None) ->
  exists s2,
    log s2 = log s /\
    quietly (logged s2 (Closed <$> conns))
      (measure W fuel args executor is_async query query_args conns is_copy
               admin_conn s).
Proof.
  intros Hfuel Hclose.
  pose proof (both_passes_log W fuel args executor is_async query query_args conns s)
    as Hlog.
  pose proof (both_passes_ends W fuel args executor is_async query query_args conns s
                Hfuel) as Hends.
  unfold measure, bind at 1, passes, try_finally.
  destruct (both_passes _ _ _ _ _ _ _ _ s) as [[[results span]|e|] s2]; [| |done];
    simpl in Hlog; exists s2; (split; [done|]);
    rewrite (close_all_Ok W conns s2 Hclose); [|by apply quietly_here].
  unfold bind at 1, lift.
  pose proof (aggregate_from_ends aggregate_init results) as Hagg.
  fold (aggregate results) in Hagg.
  destruct (aggregate results) as [a|e|]; [|by apply quietly_here|done].
  unfold bind.
  assert (quietly (logged s2 (Closed <$> conns))
            ((if is_copy then post_check W query_args admin_conn (a_queries a)
              else ret tt) (logged s2 (Closed <$> conns)))) as Hcheck.
  { destruct is_copy; [apply post_check_quietly|by apply quietly_here]. }
  set (chk := (if is_copy then post_check W query_args admin_conn (a_queries a)
               else ret tt) (logged s2 (Closed <$> conns))) in *.
  destruct Hcheck as [Hne (tail & Hs3 & Htail)].
  destruct chk as [[[]|e|] s3]; simpl in *; [| |done]; subst s3;
    (apply (quietly_logged _ tail); [done|]).
  - destruct (a_latency_stats a); by apply quietly_here.
  - by apply quietly_here.
Qed.

(** X9: the worker connections are released on every path out of the
    outer [try].  Once the prologue has succeeded, with fuel for the
    sample loops to end and closes that do not raise, [runner] ends, by
    returning or by raising, and has then closed every connection it
    opened, once, before anything else it did. *)
Theorem connections_released_whatever_happens (W : World) (fuel : nat) (args : Args)
    (connector : connector_id) (executor : executor_id)
    (copy_executor : option executor_id) (is_async : bool) (arg_format : arg_format)
    (query : string) (query_args : list pyval) (setup teardown : option string)
    (l : Locals) (s0 s1 : State) :
  prologue W args connector executor copy_executor arg_format query query_args setup s0
  = (Ok l, s1) ->
  (enough_fuel args <= fuel)%nat ->
  (forall conn, (conn < args_concurrency args)%nat -> close W conn = None) ->
  exists r s' tail,
    runner W fuel args connector executor copy_executor is_async arg_format
           query query_args setup teardown s0 = (r, s') /\
    r <> OutOfFuel /\
    log s' = log s1 ++ (Closed <$> seq 0 (args_concurrency args)) ++ tail /\
    Forall (fun e => is_conn_event e = false) tail.
Proof.
  intros Hpro Hfuel Hclose.
  pose proof (prologue_Ok _ _ _ _ _ _ _ _ _ _ _ _ Hpro) as (Hconns & _ & _).
  destruct (measure_releases W fuel args (l_executor l) is_async (l_query l)
              (l_query_args l) (l_conns l) (l_is_copy l) (l_admin_conn l) s1 Hfuel)
    as (s2 & Hlog & Hm).
  { intros conn Hin. apply Hclose. rewrite Hconns in Hin.
    apply elem_of_seq in Hin. lia. }
  pose proof (try_finally_quietly _ (run_teardown W (l_admin_conn l) teardown) _ _ Hm
                (run_teardown_quietly W (l_admin_conn l) teardown)) as Hg.
  fold (guarded W fuel args is_async teardown l) in Hg.
  unfold runner, bind at 1. rewrite Hpro. unfold bind.
  destruct (guarded W fuel args is_async teardown l s1) as [[data|e|] s3];
    destruct Hg as [Hne (tail & E & Htail)]; simpl in *; [| |done]; subst s3.
  - eexists _, _, (tail ++ [Printed data]). split; [reflexivity|].
    split; [done|]. simpl. rewrite Hlog, Hconns, <- !app_assoc. split; [done|].
    apply Forall_app. split; [done|]. by repeat constructor.
  - eexists _, _, tail. split; [reflexivity|]. split; [done|].
    simpl. by rewrite Hlog, Hconns, <- !app_assoc.
Qed.

Lemma connections_released_whatever_happens_witness :
  exists r s' tail,
    runner failing_world (enough_fuel failing_args) failing_args psycopg_connect
           psycopg_execute (Some psycopg_copy) false python "SELECT 1" []
           (Some create_table) (Some drop_table) state0 = (r, s') /\
    r <> OutOfFuel /\
    log s' = log failing_state ++ (Closed <$> seq 0 (args_concurrency failing_args))
               ++ tail /\
    Forall (fun e => is_conn_event e = false) tail.
Proof.
  assert (prologue failing_world failing_args psycopg_connect psycopg_execute
            (Some psycopg_copy) python "SELECT 1" [] (Some create_table) state0
          = (Ok failing_locals, failing_state)) as Hpro by reflexivity.
  exact (connections_released_whatever_happens failing_world
           (enough_fuel failing_args) failing_args psycopg_connect psycopg_execute
           (Some psycopg_copy) false python "SELECT 1" [] (Some create_table)
           (Some drop_table) failing_locals state0 failing_state Hpro
           (Nat.le_refl (enough_fuel failing_args))
           (fun conn _ => eq_refl)).
Defined.

(** ** Edges of the life cycle *)

Lemma acquire_all (W : World) (c : connector_id) (todo conns : list nat) (s : State) :
  (forall i, i ∈ todo -> connect W c i = None) ->
  acquire W c todo conns s = (Ok (conns ++ todo), logged s (Connected <$> todo)).
Proof.
  revert conns s. induction todo as [|i todo IH]; intros conns s Hall; simpl.
  - by rewrite app_nil_r, logged_nil.
  - unfold bind at 1. rewrite (Hall i) by left. simpl.
    rewrite IH by (intros; apply Hall; by right).
    by rewrite <- app_assoc, logged_logged.
Qed.

(** X10: with [--concurrency 0] no report is printed.  A job that is not
    a COPY and has neither set-up nor tear-down ends at once, leaving no
    event: the thread pool of a threaded driver refuses to be built with
    no worker ([ValueError]), and an asynchronous driver has no result to
    merge, so [latency_stats] is still [None] when the report is built
    ([AttributeError]). *)
Theorem no_worker_no_report (W : World) (fuel : nat) (args : Args)
    (connector : connector_id) (executor : executor_id)
    (copy_executor : option executor_id) (is_async : bool) (arg_format : arg_format)
    (query : string) (query_args : list pyval) (s : State) :
  args_concurrency args = 0%nat ->
  startswith_COPY (match arg_format with python => re_sub query | native => query end)
  = false ->
  runner W fuel args connector executor copy_executor is_async arg_format
         query query_args None None s
  = (Raise (if is_async then AttributeError else ValueError), s).
Proof.
  intros Hzero Hcopy. destruct s as [t sv lg].
  unfold runner, prologue. rewrite Hcopy, Hzero.
  unfold bind at 1 2 3 4. simpl.
  unfold bind, guarded, try_finally, measure, bind, passes, try_finally, both_passes,
    bind, _do_run.
  cbn [l_executor l_query l_query_args l_conns l_is_copy l_admin_conn].
  rewrite Hzero.
  destruct is_async; simpl.
  - destruct (bool_decide (args_warmup_time args = 0)); simpl;
      by rewrite ?app_nil_r.
  - destruct (bool_decide (args_warmup_time args = 0)); simpl;
      by rewrite ?app_nil_r.
Qed.

Lemma no_worker_no_report_witness :
  runner (stub_world half_s 0) 0 (args_of 0 1 1 0 asyncpg) asyncpg_connect
         asyncpg_execute (Some asyncpg_copy) true native "SELECT 1" [] None None state0
  = (Raise AttributeError, state0).
Proof.
  exact (no_worker_no_report (stub_world half_s 0) 0 (args_of 0 1 1 0 asyncpg)
           asyncpg_connect asyncpg_execute (Some asyncpg_copy) true native
           "SELECT 1" [] state0 eq_refl eq_refl).
Defined.

(** X11: when the set-up statement fails, [runner] ends with that
    exception: the worker connections it has opened are left open and
    the tear-down statement is not executed, the outer [try] not being
    entered yet.  This holds of every job that gets as far as the set-up
    statement: every connection is opened and, for a COPY job, the COPY
    special case of lines 162-176 has not raised. *)
Theorem failed_setup_leaves_connections_open (W : World) (fuel : nat) (args : Args)
    (connector : connector_id) (executor : executor_id)
    (copy_executor : option executor_id) (is_async : bool) (arg_format : arg_format)
    (query : string) (query_args : list pyval) (stmt : string)
    (teardown : option string) (e : exn) (s : State) :
  (startswith_COPY (match arg_format with python => re_sub query | native => query end)
   = true ->
   exists x,
     prepare_copy executor copy_executor
       (match arg_format with python => re_sub query | native => query end)
       query_args s = (Ok x, s)) ->
  (forall i, (i < args_concurrency args)%nat -> connect W connector i = None) ->
  stmt <> EmptyString ->
  admin_connect W = None ->
  admin_execute W stmt = Some e ->
  runner W fuel args connector executor copy_executor is_async arg_format
         query query_args (Some stmt) teardown s
  = (Raise e,
     logged s ((Connected <$> seq 0 (args_concurrency args)) ++ [AdminConnected])).
Proof.
  intros Hcopy Hconn Hstmt Hadmin Hexec.
  unfold runner, prologue.
  set (q := match arg_format with python => re_sub query | native => query end) in *.
  assert (exists x,
            (if startswith_COPY q
             then prepare_copy executor copy_executor q query_args
             else ret (executor, query_args)) s = (Ok x, s)) as [[ex qa] Hx].
  { destruct (startswith_COPY q); [by apply Hcopy|by eexists]. }
  unfold bind at 1 2 3. rewrite Hx.
  rewrite acquire_all.
  2:{ intros i Hi. apply Hconn. apply elem_of_seq in Hi. lia. }
  unfold bind at 1, run_setup, truthy. rewrite bool_decide_false by done. simpl.
  unfold bind. rewrite Hadmin. simpl. rewrite Hexec. simpl.
  by rewrite logged_logged.
Qed.

Lemma failed_setup_leaves_connections_open_witness :
  runner refusing_world 10 one_thread psycopg_connect psycopg_execute
         (Some psycopg_copy) false python copy_query copy_args (Some create_table)
         (Some drop_table) state0
  = (Raise (DriverError 3),
     logged state0 ((Connected <$> seq 0 (args_concurrency one_thread))
                      ++ [AdminConnected])).
Proof.
  apply (failed_setup_leaves_connections_open refusing_world 10 one_thread
           psycopg_connect psycopg_execute (Some psycopg_copy) false python
           copy_query copy_args create_table (Some drop_table) (DriverError 3) state0).
  - intros _. eexists. reflexivity.
  - reflexivity.
  - discriminate.
  - reflexivity.
  - reflexivity.
Defined.

(** ** The rewriting of the placeholders *)

Lemma re_sub_placeholders_head (b : bool) (s : list ascii) :
  starts_with_digit (re_sub_placeholders b s) = true ->
  b = false /\ starts_with_digit s = true.
Proof.
  revert b. induction s as [|c s IH]; intros b; simpl; [done|].
  destruct (b && is_digit c) eqn:E1.
  - intros H. apply IH in H as [? _]. done.
  - destruct (is_char "$" c && _) eqn:E2; simpl; [done|].
    intros Hc. rewrite Hc in E1. by destruct b.
Qed.

Lemma re_sub_placeholders_clean (b : bool) (s : list ascii) :
  no_placeholder (re_sub_placeholders b s) = true.
Proof.
  revert b. induction s as [|c s IH]; intros b; simpl; [done|].
  destruct (b && is_digit c); [apply IH|].
  destruct (is_char "$" c && _) eqn:E; simpl.
  - apply IH.
  - rewrite IH, andb_true_r. apply negb_true_iff, andb_false_iff.
    destruct (is_char "$" c) eqn:Ec; [right|by left].
    destruct (starts_with_digit (re_sub_placeholders false s)) eqn:Hd; [|done].
    apply re_sub_placeholders_head in Hd as [_ Hd].
    simpl in E. unfold starts_with_digit in Hd. by rewrite Hd in E.
Qed.

Lemma re_sub_placeholders_id (s : list ascii) :
  no_placeholder s = true -> re_sub_placeholders false s = s.
Proof.
  induction s as [|c s IH]; simpl; [done|].
  intros [Hc Hs]%andb_true_iff. apply negb_true_iff in Hc.
  unfold starts_with_digit in Hc. rewrite Hc. by rewrite IH.
Qed.

Lemma no_dollar_no_placeholder (s : list ascii) :
  Forall (fun c => c <> "$"%char) s -> no_placeholder s = true.
Proof.
  induction 1 as [|c s Hc _ IH]; simpl; [done|].
  rewrite IH, andb_true_r. unfold is_char. by rewrite bool_decide_false.
Qed.

(** X12: rewriting the placeholders of a query twice is rewriting them
    once: the rewritten query holds no dollar sign followed by a digit. *)
Theorem re_sub_is_idempotent (query : string) :
  re_sub (re_sub query) = re_sub query /\
  no_placeholder (String.list_ascii_of_string (re_sub query)) = true.
Proof.
  unfold re_sub. rewrite !String.list_ascii_of_string_of_list_ascii. split.
  - rewrite re_sub_placeholders_id; [done|apply re_sub_placeholders_clean].
  - apply re_sub_placeholders_clean.
Qed.

(** X14: a query without a dollar sign is not changed. *)
Theorem re_sub_without_dollar (query : string) :
  Forall (fun c => c <> "$"%char) (String.list_ascii_of_string query) ->
  re_sub query = query.
Proof.
  intros H. unfold re_sub.
  rewrite re_sub_placeholders_id by (by apply no_dollar_no_placeholder).
  apply String.string_of_list_ascii_of_string.
Qed.

Lemma re_sub_without_dollar_witness : re_sub "SELECT 1" = "SELECT 1"%string.
Proof.
  apply (re_sub_without_dollar "SELECT 1"). simpl. repeat constructor; done.
Defined.

Lemma strip_prefix_re_sub (p s : list ascii) :
  Forall (fun c => c <> "$"%char /\ c <> "%"%char) p ->
  is_Some (strip_prefix p (re_sub_placeholders false s))
  <-> is_Some (strip_prefix p s).
Proof.
  intros Hp. revert s. induction Hp as [|a p [Ha1 Ha2] _ IH]; intros s; simpl; [done|].
  destruct s as [|c s]; simpl; [done|].
  destruct (is_char "$" c && _) eqn:E; simpl.
  - apply andb_true_iff in E as [Ec _]. unfold is_char in *.
    apply bool_decide_eq_true in Ec. subst c.
    rewrite !bool_decide_false by done. done.
  - destruct (is_char a c); [apply IH|done].
Qed.

(** X13: rewriting the placeholders neither makes nor unmakes a COPY
    query: [runner], which looks at the rewritten query, and the
    [__main__] block, which picks the driver functions from the query as
    given, agree on what a COPY job is. *)
Theorem re_sub_keeps_COPY (query : string) :
  startswith_COPY (re_sub query) = startswith_COPY query.
Proof.
  unfold startswith_COPY, re_sub.
  rewrite String.list_ascii_of_string_of_list_ascii.
  apply bool_decide_ext, strip_prefix_re_sub.
  repeat constructor; done.
Qed.

(** ** COPY jobs that are turned down *)

(** X15: a COPY job that the COPY special case turns down (no COPY
    function for the driver, a query that does not match the pattern,
    arguments of another shape) makes [runner] raise before it opens a
    connection: nothing has happened. *)
Theorem copy_job_rejected_before_connecting (W : World) (fuel : nat) (args : Args)
    (connector : connector_id) (executor : executor_id)
    (copy_executor : option executor_id) (is_async : bool) (arg_format : arg_format)
    (query : string) (query_args : list pyval) (setup teardown : option string)
    (e : exn) (s : State) :
  let query' := match arg_format with python => re_sub query | native => query end in
  startswith_COPY query' = true ->
  (prepare_copy executor copy_executor query' query_args s).1 = Raise e ->
  runner W fuel args connector executor copy_executor is_async arg_format
         query query_args setup teardown s
  = (Raise e, s).
Proof.
  intros query' Hcopy Hraise. unfold runner, prologue. fold query'. rewrite Hcopy.
  unfold bind at 1 2.
  pose proof (prepare_copy_pure executor copy_executor query' query_args s) as Hpure.
  destruct (prepare_copy executor copy_executor query' query_args s) as [r s1].
  simpl in *. by subst.
Qed.

Lemma copy_job_rejected_before_connecting_witness :
  runner (stub_world half_s 0) 10 one_thread psycopg_connect psycopg_execute
         (Some psycopg_copy) false python unclosed_copy copy_args None None state0
  = (Raise (RuntimeError could_not_parse_COPY_query), state0).
Proof.
  apply (copy_job_rejected_before_connecting (stub_world half_s 0) 10 one_thread
           psycopg_connect psycopg_execute (Some psycopg_copy) false python
           unclosed_copy copy_args None None
           (RuntimeError could_not_parse_COPY_query) state0); reflexivity.
Defined.

(** X16: the [postgresql] driver has no COPY function: a COPY job given
    to it passes the checks of the [__main__] block and is turned down by
    [runner] with the [RuntimeError] of line 164, before any connection;
    every other driver has a COPY function for a COPY query. *)
Theorem only_postgresql_cannot_copy (W : World) (fuel : nat) (args : Args)
    (querydata : QueryData) (query : string) (s : State) :
  qd_query querydata = Some query ->
  startswith_COPY query = true ->
  truthy (qd_setup querydata) && negb (truthy (qd_teardown querydata)) = false ->
  (args_driver args = postgresql ->
   main W fuel args querydata s
   = (Raise (RuntimeError (COPY_is_not_supported_for pypostgresql_execute)), s)) /\
  (args_driver args <> postgresql ->
   exists copy, (select_driver (args_driver args) query).1.1.2 = Some copy).
Proof.
  intros Hq Hcopy Hsetup.
  assert (truthy (Some query) = true) as Htruthy.
  { unfold truthy. apply negb_true_iff, bool_decide_eq_false. intros ->.
    discriminate. }
  split.
  - intros Hd. unfold main. rewrite Hq, Htruthy, Hsetup, Hd. simpl.
    apply copy_job_rejected_before_connecting; [done|reflexivity].
  - intros Hd. unfold select_driver. rewrite Hcopy.
    destruct (args_driver args); simpl; eauto. done.
Qed.

Lemma only_postgresql_cannot_copy_witness :
  main (stub_world half_s 0) 10 (args_of 1 1 1 0 postgresql)
       (copy_job None None) state0
  = (Raise (RuntimeError (COPY_is_not_supported_for pypostgresql_execute)), state0).
Proof.
  destruct (only_postgresql_cannot_copy (stub_world half_s 0) 10
              (args_of 1 1 1 0 postgresql) (copy_job None None) copy_query state0)
    as [H _]; [reflexivity..|].
  apply H. reflexivity.
Defined.

(** ** COPY runs that end well *)

Lemma list_times_Ok (row count payload : pyval) :
  list_times row count = Ok payload ->
  exists k, payload = PList (replicate k row) /\
            (forall n, count = PInt n -> k = Z.to_nat n).
Proof.
  unfold list_times. destruct count as [|b|n| | |]; try discriminate.
  - intros [= <-]. eexists. split; [done|]. discriminate.
  - intros [= <-]. eexists. split; [done|]. by intros n' [= <-].
Qed.

Lemma prepare_copy_Ok (executor executor' : executor_id)
    (copy_executor : option executor_id) (query : string)
    (query_args query_args' : list pyval) (s s' : State) :
  prepare_copy executor copy_executor query query_args s
  = (Ok (executor', query_args'), s') ->
  exists table columns query_info rest row count k,
    copy_executor = Some executor' /\
    re_match_COPY query = Some (table, columns) /\
    query_args = query_info :: rest /\
    subscript query_info "row" = Ok row /\
    subscript query_info "count" = Ok count /\
    list_times row count = Ok (PList (replicate k row)) /\
    query_args'
    = PList (replicate k row) :: rest
        ++ [PDict [("table"%string, PStr table);
                   ("columns"%string, PList (PStr <$> columns_of columns))]].
Proof.
  unfold prepare_copy. destruct copy_executor as [copy|]; [|discriminate].
  destruct (re_match_COPY query) as [[table columns]|]; [|discriminate].
  destruct query_args as [|query_info rest]; [discriminate|].
  intros (row & s1 & [Hrow ->]%lift_Ok & Hrest)%bind_Ok.
  apply bind_Ok in Hrest as (count & s1 & [Hcount ->]%lift_Ok & Hrest).
  apply bind_Ok in Hrest as (payload & s1 & [Hpay ->]%lift_Ok & Hrest).
  injection Hrest as <- <- <-.
  destruct (list_times_Ok _ _ _ Hpay) as (k & -> & _).
  by exists table, columns, query_info, rest, row, count, k.
Qed.

Lemma post_check_Ok (W : World) (payload : list pyval) (rest : list pyval)
    (d : list (string * pyval)) (table : string) (admin_conn : bool)
    (queries : Z) (u : unit) (s s' : State) :
  dict_get d "table" = Some (PStr table) ->
  post_check W (PList payload :: rest ++ [PDict d]) admin_conn queries s = (Ok u, s') ->
  admin_conn = true /\
  exists rowcount,
    admin_fetchval W table = Rows rowcount /\
    Z.of_nat (length payload) * queries <= rowcount /\
    s' = logged s [AdminCounted table; StderrRowcount rowcount].
Proof.
  intros Htable. unfold post_check. rewrite last_snoc_cons.
  unfold on_admin_conn. destruct admin_conn; [|discriminate].
  unfold bind at 1, lift at 1, subscript. rewrite Htable.
  unfold bind at 1, lift at 1.
  destruct (admin_fetchval W table) as [rowcount|e]; [|discriminate].
  unfold bind, emit, lift. simpl.
  destruct (Z.ltb_spec rowcount (Z.of_nat (length payload) * queries)); [discriminate|].
  rewrite logged_logged. intros [= <-]. split; [done|]. by exists rowcount.
Qed.

(** X17: a COPY run that ends normally has checked the table.  The job
    had a set-up statement, its first argument had a [row] and a
    [count], the table named in the query was counted on the
    administrative connection, and the count was at least the rows of
    the payload times the queries of the report. *)
Theorem copy_run_has_checked_the_table (W : World) (fuel : nat) (args : Args)
    (connector : connector_id) (executor : executor_id)
    (copy_executor : option executor_id) (is_async : bool) (arg_format : arg_format)
    (query : string) (query_args : list pyval) (setup teardown : option string)
    (u : unit) (s0 s' : State) :
  let query' := match arg_format with python => re_sub query | native => query end in
  runner W fuel args connector executor copy_executor is_async arg_format
         query query_args setup teardown s0 = (Ok u, s') ->
  startswith_COPY query' = true ->
  exists data table columns query_info rest row count k rowcount,
    printed (log s') = Some data /\
    truthy setup = true /\
    re_match_COPY query' = Some (table, columns) /\
    query_args = query_info :: rest /\
    subscript query_info "row" = Ok row /\
    subscript query_info "count" = Ok count /\
    list_times row count = Ok (PList (replicate k row)) /\
    admin_fetchval W table = Rows rowcount /\
    Z.of_nat k * r_queries data <= rowcount.
Proof.
  intros query' (l & s1 & s2 & s3 & data & Hpro & Hm & _ & ->)%runner_Ok Hcopy.
  pose proof (prologue_Ok _ _ _ _ _ _ _ _ _ _ _ _ Hpro) as (_ & Hadmin & _).
  unfold prologue in Hpro. fold query' in Hpro. rewrite Hcopy in Hpro.
  apply bind_Ok in Hpro as ([ex qa] & sa & Hprep & Hpro).
  apply prepare_copy_Ok in Hprep
    as (table & columns & query_info & rest & row & count & k
        & _ & Hmatch & -> & Hrow & Hcount & Htimes & ->).
  apply bind_Ok in Hpro as (cs & sb & _ & Hpro).
  apply bind_Ok in Hpro as (ad & sc & _ & Hpro).
  injection Hpro as <- <-. cbn [l_executor l_query l_query_args l_conns l_is_copy
                                l_admin_conn] in *.
  unfold measure in Hm.
  apply bind_Ok in Hm as ([results span] & sd & _ & Hm).
  apply bind_Ok in Hm as (a & se & _ & Hm).
  apply bind_Ok in Hm as ([] & sf & Hcheck & Hm).
  destruct (a_latency_stats a) as [h|]; [|discriminate]. injection Hm as <- _.
  apply (post_check_Ok W _ _ _ table) in Hcheck
    as (-> & rowcount & Hfetch & Hle & _); [|reflexivity].
  rewrite length_replicate in Hle.
  exists {| r_queries := a_queries a; r_rows := a_rows a; r_duration := span;
            r_min_latency := a_min_latency a; r_max_latency := a_max_latency a;
            r_latency_stats := h; r_output_format := args_output_format args |},
    table, columns, query_info, rest, row, count, k, rowcount.
  rewrite printed_logged. by split_and!.
Qed.

Lemma copy_run_has_checked_the_table_witness :
  exists data table columns query_info rest row count k rowcount,
    printed (log fine_copy_run.2) = Some data /\
    truthy (Some create_table) = true /\
    re_match_COPY (re_sub copy_query) = Some (table, columns) /\
    copy_args = query_info :: rest /\
    subscript query_info "row" = Ok row /\
    subscript query_info "count" = Ok count /\
    list_times row count = Ok (PList (replicate k row)) /\
    admin_fetchval (stub_world half_s 10) table = Rows rowcount /\
    Z.of_nat k * r_queries data <= rowcount.
Proof.
  assert (is_ok fine_copy_run.1 = true) as E by (vm_compute; reflexivity).
  exact (copy_run_has_checked_the_table (stub_world half_s 10) 10 one_thread
           psycopg_connect psycopg_execute (Some psycopg_copy) false python
           copy_query copy_args (Some create_table) (Some drop_table)
           tt state0 fine_copy_run.2 (ok_unit_pair fine_copy_run E) eq_refl).
Defined.

(** ** Reading a COPY query *)

Lemma word_is_plain (c : ascii) :
  is_word c = true ->
  is_space c = false /\ c <> ","%char /\ c <> ")"%char /\ c <> "("%char.
Proof.
  destruct c as [[] [] [] [] [] [] [] []]; vm_compute; intros H;
    try discriminate; split_and!; done.
Qed.

Lemma span_all (p : ascii -> bool) (w rest : list ascii) :
  Forall (fun c => p c = true) w ->
  match rest with c :: _ => p c = false | [] => True end ->
  span p (w ++ rest) = (w, rest).
Proof.
  intros Hw Hrest. induction Hw as [|c w Hc _ IH]; simpl.
  - destruct rest as [|c rest]; simpl; [done|]. by rewrite Hrest.
  - by rewrite Hc, IH.
Qed.

Lemma span_none (p : ascii -> bool) (c : ascii) (rest : list ascii) :
  p c = false -> span p (c :: rest) = ([], c :: rest).
Proof. intros H. simpl. by rewrite H. Qed.

Lemma strip_prefix_app (p x : list ascii) : strip_prefix p (p ++ x) = Some x.
Proof.
  induction p as [|a p IH]; simpl; [by destruct x|].
  unfold is_char. by rewrite bool_decide_true.
Qed.

Lemma name_head (s rest : list ascii) :
  is_name s -> exists c s', s ++ rest = c :: s' /\ is_word c = true.
Proof.
  intros [Hne Hall]. destruct s as [|c s]; [done|].
  apply Forall_cons in Hall as [Hc _]. by exists c, (s ++ rest).
Qed.

Lemma span_space_name (c rest : list ascii) :
  is_name c -> span is_space (" "%char :: c ++ rest) = ([" "%char], c ++ rest).
Proof.
  intros Hc. destruct (name_head c rest Hc) as (c0 & s' & E & Hc0).
  destruct (word_is_plain c0 Hc0) as (Hsp & _).
  rewrite E. change (span is_space (" "%char :: c0 :: s'))
    with (let '(a, b) := span is_space (c0 :: s') in (" "%char :: a, b)).
  by rewrite (span_none is_space c0 s' Hsp).
Qed.

(** One more column. *)
Lemma more_columns_turn (n : nat) (c rest : list ascii) :
  is_name c ->
  match rest with x :: _ => is_word x = false | [] => True end ->
  more_columns (S n) (","%char :: " "%char :: c ++ rest)
  = let '(m, r) := more_columns n rest in (","%char :: " "%char :: c ++ m, r).
Proof.
  intros Hc Hrest.
  change (more_columns (S n) (","%char :: " "%char :: c ++ rest))
    with (let '(sp, s2) := span is_space (" "%char :: c ++ rest) in
          let '(w, s3) := span is_word s2 in
          match w with
          | [] => ([], ","%char :: " "%char :: c ++ rest)
          | _ :: _ => let '(m, r) := more_columns n s3 in
                      (","%char :: sp ++ w ++ m, r)
          end).
  rewrite (span_space_name c rest Hc).
  rewrite (span_all is_word c rest (proj2 Hc) Hrest).
  destruct Hc as [Hne _]. destruct c as [|c1 c]; [done|].
  by destruct (more_columns n rest).
Qed.

Lemma more_columns_all (cs : list (list ascii)) (n : nat) (tail : list ascii) :
  Forall is_name cs ->
  (length cs <= n)%nat ->
  more_columns n (further_columns cs ++ ")"%char :: tail)
  = (further_columns cs, ")"%char :: tail).
Proof.
  intros Hcs. revert n. induction Hcs as [|c cs Hc _ IH]; intros n Hn.
  - simpl. by destruct n.
  - destruct n as [|n]; [simpl in Hn; lia|].
    change (further_columns (c :: cs))
      with (","%char :: " "%char :: c ++ further_columns cs).
    change ((","%char :: " "%char :: c ++ further_columns cs) ++ ")"%char :: tail)
      with (","%char :: " "%char :: (c ++ further_columns cs) ++ ")"%char :: tail).
    rewrite <- (app_assoc c).
    rewrite more_columns_turn; [|done|by destruct cs].
    rewrite IH by (simpl in Hn; lia). done.
Qed.

Lemma further_columns_length (cs : list (list ascii)) (rest : list ascii) :
  (length cs <= length (further_columns cs ++ rest))%nat.
Proof.
  induction cs as [|c cs IH]; [simpl; lia|].
  change (further_columns (c :: cs) ++ rest)
    with (","%char :: " "%char :: (c ++ further_columns cs) ++ rest).
  rewrite <- app_assoc. simpl. rewrite length_app. lia.
Qed.

Lemma further_columns_head (cs : list (list ascii)) (tail : list ascii) :
  match further_columns cs ++ ")"%char :: tail with
  | x :: _ => is_word x = false
  | [] => True
  end.
Proof. by destruct cs. Qed.

Lemma split_commas_piece (p rest : list ascii) :
  Forall (fun c => c <> ","%char) p ->
  split_commas (p ++ ","%char :: rest) = p :: split_commas rest.
Proof.
  induction 1 as [|c p Hc _ IH]; simpl; [done|].
  unfold is_char. rewrite bool_decide_false by done. by rewrite IH.
Qed.

Lemma split_commas_one (p : list ascii) :
  Forall (fun c => c <> ","%char) p -> split_commas p = [p].
Proof.
  induction 1 as [|c p Hc _ IH]; simpl; [done|].
  unfold is_char. rewrite bool_decide_false by done. by rewrite IH.
Qed.

Lemma name_no_comma (c : list ascii) :
  is_name c -> Forall (fun x => x <> ","%char) c.
Proof.
  intros [_ Hc]. eapply Forall_impl; [exact Hc|].
  intros x Hx. by apply word_is_plain in Hx as (_ & ? & _).
Qed.

Lemma split_commas_columns (p : list ascii) (cs : list (list ascii)) :
  Forall (fun c => c <> ","%char) p ->
  Forall is_name cs ->
  split_commas (p ++ further_columns cs) = p :: (cons " "%char <$> cs).
Proof.
  intros Hp Hcs. revert p Hp. induction Hcs as [|c cs Hc _ IH]; intros p Hp.
  - simpl. rewrite app_nil_r. by apply split_commas_one.
  - change (further_columns (c :: cs))
      with (","%char :: (" "%char :: c) ++ further_columns cs).
    rewrite split_commas_piece by done.
    change (cons " "%char <$> c :: cs)
      with ((" "%char :: c) :: (cons " "%char <$> cs)).
    f_equal. apply IH. constructor; [done|]. by apply name_no_comma.
Qed.

Lemma span_space_of_name (c : list ascii) :
  is_name c -> (span is_space c).2 = c.
Proof.
  intros Hc. destruct (name_head c [] Hc) as (c0 & s' & E & Hc0).
  rewrite app_nil_r in E. rewrite E.
  destruct (word_is_plain c0 Hc0) as (Hsp & _). by rewrite span_none.
Qed.

Lemma span_space_of_name_app (c rest : list ascii) :
  is_name c -> (span is_space (c ++ rest)).2 = c ++ rest.
Proof.
  intros Hc. destruct (name_head c rest Hc) as (c0 & s' & E & Hc0).
  rewrite E. destruct (word_is_plain c0 Hc0) as (Hsp & _). by rewrite span_none.
Qed.

Lemma strip_name (c : list ascii) :
  is_name c -> strip c = c /\ strip (" "%char :: c) = c.
Proof.
  intros Hc.
  assert (is_name (rev c)) as Hrev.
  { destruct Hc as [Hne Hall]. split; [|by apply Forall_rev].
    intros E. apply Hne. by rewrite <- (rev_involutive c), E. }
  assert (strip c = c) as Hstrip.
  { unfold strip. rewrite (span_space_of_name c Hc), (span_space_of_name _ Hrev).
    apply rev_involutive. }
  split; [done|]. unfold strip.
  pose proof (span_space_name c [] Hc) as Hsp. rewrite app_nil_r in Hsp.
  rewrite Hsp. simpl. rewrite (span_space_of_name _ Hrev). apply rev_involutive.
Qed.

(** X18: the COPY pattern reads back what was written.  In a query made
    of [COPY], a table name, a space, and a parenthesised list of column
    names separated by a comma and a space, whatever follows the closing
    parenthesis, group 1 is the table name, and the columns obtained by
    splitting group 2 at the commas and stripping the blanks are the
    column names, in order. *)
Theorem copy_pattern_reads_what_was_written (table c : list ascii)
    (cs : list (list ascii)) (tail : list ascii) :
  is_name table -> is_name c -> Forall is_name cs ->
  re_match_COPY (String.string_of_list_ascii (copy_text table c cs tail))
  = Some (String.string_of_list_ascii table,
          String.string_of_list_ascii (c ++ further_columns cs)) /\
  columns_of (String.string_of_list_ascii (c ++ further_columns cs))
  = String.string_of_list_ascii <$> (c :: cs).
Proof.
  intros Htable Hc Hcs. split.
  - unfold re_match_COPY, copy_text.
    rewrite String.list_ascii_of_string_of_list_ascii, strip_prefix_app.
    rewrite span_all; [|apply Htable|reflexivity].
    destruct Htable as [Hne _]. destruct table as [|t0 table]; [done|].
    change (span is_space (" "%char :: "("%char ::
              c ++ further_columns cs ++ ")"%char :: tail)).2
      with ("("%char :: c ++ further_columns cs ++ ")"%char :: tail).
    change (is_char "(" "("%char) with true. cbv iota.
    rewrite (span_space_of_name_app c (further_columns cs ++ ")"%char :: tail) Hc).
    rewrite (span_all is_word c _ (proj2 Hc) (further_columns_head cs tail)).
    destruct Hc as [Hnec _]. destruct c as [|c0 c]; [done|].
    rewrite more_columns_all by (done || apply further_columns_length).
    reflexivity.
  - unfold columns_of. rewrite String.list_ascii_of_string_of_list_ascii.
    rewrite split_commas_columns by (done || by apply name_no_comma).
    csimpl. rewrite (proj1 (strip_name c Hc)). f_equal.
    rewrite <- list_fmap_compose. apply Forall_fmap_ext.
    eapply Forall_impl; [exact Hcs|]. intros x Hx. simpl.
    by rewrite (proj2 (strip_name x Hx)).
Qed.

Lemma copy_pattern_reads_what_was_written_witness :
  re_match_COPY (String.string_of_list_ascii
                   (copy_text ["t"%char] ["a"%char] [["b"%char]] []))
  = Some (String.string_of_list_ascii ["t"%char],
          String.string_of_list_ascii (["a"%char] ++ further_columns [["b"%char]])) /\
  columns_of (String.string_of_list_ascii
                (["a"%char] ++ further_columns [["b"%char]]))
  = String.string_of_list_ascii <$> [["a"%char]; ["b"%char]].
Proof.
  apply (copy_pattern_reads_what_was_written ["t"%char] ["a"%char] [["b"%char]] []).
  - split; [done|]. by repeat constructor.
  - split; [done|]. by repeat constructor.
  - repeat constructor; done.
Defined.

(** ** The cell of a request *)

Lemma py_round_mono (n m d : Z) :
  0 < d -> n <= m -> py_round n d <= py_round m d.
Proof.
  intros Hd Hnm. unfold py_round.
  pose proof (Z.div_mod n d ltac:(lia)) as Hn.
  pose proof (Z.div_mod m d ltac:(lia)) as Hm.
  pose proof (Z.mod_pos_bound n d Hd) as Hrn.
  pose proof (Z.mod_pos_bound m d Hd) as Hrm.
  pose proof (Z.div_le_mono n m d Hd Hnm) as Hq.
  destruct (Z.eq_dec (n / d) (m / d)) as [E|E].
  - rewrite <- E in *. assert (n mod d <= m mod d) by lia.
    repeat case_match; lia.
  - repeat case_match; lia.
Qed.

(** X19: a slower request never lands in a lower cell: [req_time] of
    line 117 grows with the time the request took. *)
Theorem slower_request_no_lower_cell (elapsed1 elapsed2 : Z) :
  elapsed1 <= elapsed2 -> req_time_of elapsed1 <= req_time_of elapsed2.
Proof. intros H. apply py_round_mono; [reflexivity | lia]. Qed.

Lemma slower_request_no_lower_cell_witness :
  req_time_of 14999 <= req_time_of 15000.
Proof. apply (slower_request_no_lower_cell 14999 15000). lia. Defined.

(** X20: a cell is ten microseconds wide and [req_time] is the nearest
    one: the cell times 10000 ns is at most 5000 ns away from the time
    the request took. *)
Theorem cell_is_within_five_microseconds (elapsed : Z) :
  Z.abs (req_time_of elapsed * 10000 - elapsed) <= 5000.
Proof.
  pose proof (py_round_nearest (elapsed * 1000 * 100) ns_per_s ns_per_s_pos) as H.
  fold (req_time_of elapsed) in H. unfold ns_per_s in H. lia.
Qed.

(** ** What the COPY pattern lets through *)

Lemma span_split (p : ascii -> bool) (s : list ascii) :
  s = (span p s).1 ++ (span p s).2 /\ Forall (fun c => p c = true) (span p s).1.
Proof.
  induction s as [|c s [IH1 IH2]]; simpl; [done|].
  destruct (p c) eqn:E; [|done].
  destruct (span p s) as [a b]. simpl in *. split; [by f_equal|]. by constructor.
Qed.

Lemma strip_prefix_Some (p s x : list ascii) :
  strip_prefix p s = Some x -> s = p ++ x.
Proof.
  revert s. induction p as [|a p IH]; intros [|b s]; simpl; try discriminate.
  - by intros [= <-].
  - by intros [= <-].
  - unfold is_char. case_bool_decide; [|discriminate]. subst.
    intros H. by rewrite (IH s H).
Qed.

Lemma more_columns_shape (n : nat) (s m rest : list ascii) :
  more_columns n s = (m, rest) ->
  exists pieces,
    m = spaced_columns pieces /\
    Forall (fun piece => Forall (fun c => is_space c = true) piece.1 /\
                         is_name piece.2) pieces.
Proof.
  revert s m rest. induction n as [|n IH]; intros s m rest; simpl.
  - intros [= <- _]. by exists [].
  - destruct s as [|c s1]; [intros [= <- _]; by exists []|].
    destruct (is_char "," c) eqn:Ec; [|intros [= <- _]; by exists []].
    pose proof (span_split is_space s1) as [_ Hsp].
    destruct (span is_space s1) as [sp s2]. simpl in Hsp.
    pose proof (span_split is_word s2) as [_ Hw].
    destruct (span is_word s2) as [w s3]. simpl in Hw.
    destruct w as [|w0 w]; [intros [= <- _]; by exists []|].
    destruct (more_columns n s3) as [m' rest'] eqn:Hrec.
    intros [= <- _]. destruct (IH _ _ _ Hrec) as (pieces & -> & Hall).
    exists ((sp, w0 :: w) :: pieces). split.
    + unfold is_char in Ec. apply bool_decide_eq_true in Ec. subst c.
      unfold spaced_columns. csimpl. by rewrite <- app_assoc.
    + constructor; [|done]. simpl. split; [done|]. split; [done|apply Hw].
Qed.

Lemma space_is_plain (c : ascii) : is_space c = true -> c <> ","%char.
Proof. intros H ->. discriminate. Qed.

Lemma split_commas_spaced (p : list ascii) (pieces : list (list ascii * list ascii)) :
  Forall (fun c => c <> ","%char) p ->
  Forall (fun piece => Forall (fun c => is_space c = true) piece.1 /\
                       is_name piece.2) pieces ->
  split_commas (p ++ spaced_columns pieces)
  = p :: ((fun piece => piece.1 ++ piece.2) <$> pieces).
Proof.
  intros Hp Hall. revert p Hp. induction Hall as [|[sp w] pieces [Hsp Hw] _ IH];
    intros p Hp.
  - unfold spaced_columns. simpl. rewrite app_nil_r. by apply split_commas_one.
  - change (spaced_columns ((sp, w) :: pieces))
      with (","%char :: (sp ++ w) ++ spaced_columns pieces).
    rewrite split_commas_piece by done.
    change ((fun piece : list ascii * list ascii => piece.1 ++ piece.2)
              <$> (sp, w) :: pieces)
      with ((sp ++ w) :: ((fun piece : list ascii * list ascii => piece.1 ++ piece.2)
                            <$> pieces)).
    f_equal. apply IH. simpl in *. apply Forall_app. split.
    + eapply Forall_impl; [exact Hsp|]. intros c. apply space_is_plain.
    + by apply name_no_comma.
Qed.

Lemma strip_spaced_name (sp w : list ascii) :
  Forall (fun c => is_space c = true) sp -> is_name w -> strip (sp ++ w) = w.
Proof.
  intros Hsp Hw. unfold strip.
  destruct (name_head w [] Hw) as (c0 & s' & E & Hc0). rewrite app_nil_r in E.
  destruct (word_is_plain c0 Hc0) as (Hc0s & _).
  rewrite (span_all is_space sp w Hsp) by (by rewrite E). simpl.
  pose proof (proj1 (strip_name w Hw)) as Hstrip. unfold strip in Hstrip.
  by rewrite (span_space_of_name w Hw) in Hstrip.
Qed.

(** X21: what the COPY pattern lets through.  When the query matches,
    it starts with [COPY ], the table (group 1) is a non-empty run of
    [\w] characters, and so is every column obtained from group 2, of
    which there is at least one: no quote, blank or other character can
    reach the table name put in the query of the check. *)
Theorem copy_pattern_gives_names (query table columns : string) :
  re_match_COPY query = Some (table, columns) ->
  startswith_COPY query = true /\
  is_name (String.list_ascii_of_string table) /\
  columns_of columns <> [] /\
  Forall (fun col => is_name (String.list_ascii_of_string col)) (columns_of columns).
Proof.
  unfold re_match_COPY, startswith_COPY.
  destruct (strip_prefix _ _) as [s0|] eqn:Hpre; [|discriminate].
  pose proof (span_split is_word s0) as [_ Hname].
  destruct (span is_word s0) as [name s1]. simpl in Hname.
  destruct name as [|n0 name]; [discriminate|].
  destruct (span is_space s1).2 as [|c s3]; [discriminate|].
  destruct (is_char "(" c); [|discriminate].
  pose proof (span_split is_word (span is_space s3).2) as [_ Hw].
  destruct (span is_word (span is_space s3).2) as [w s5]. simpl in Hw.
  destruct w as [|w0 w]; [discriminate|].
  destruct (more_columns (length s5) s5) as [m s6] eqn:Hmore.
  destruct (span is_space s6).2 as [|d s7]; [discriminate|].
  destruct (is_char ")" d); [|discriminate].
  intros [= <- <-].
  apply more_columns_shape in Hmore as (pieces & -> & Hpieces).
  split; [by apply bool_decide_eq_true|].
  change (String n0 (String.string_of_list_ascii name))
    with (String.string_of_list_ascii (n0 :: name)).
  change (String w0 (String.string_of_list_ascii (w ++ spaced_columns pieces)))
    with (String.string_of_list_ascii ((w0 :: w) ++ spaced_columns pieces)).
  rewrite String.list_ascii_of_string_of_list_ascii.
  split; [by split|].
  unfold columns_of. rewrite String.list_ascii_of_string_of_list_ascii.
  assert (is_name (w0 :: w)) as Hfirst by (by split).
  rewrite split_commas_spaced by (done || by apply name_no_comma).
  split; [done|]. csimpl. constructor.
  - rewrite String.list_ascii_of_string_of_list_ascii.
    by rewrite (proj1 (strip_name _ Hfirst)).
  - apply Forall_fmap, Forall_fmap. eapply Forall_impl; [exact Hpieces|].
    intros [sp x] [Hsp Hx]. simpl in *.
    rewrite String.list_ascii_of_string_of_list_ascii.
    by rewrite strip_spaced_name.
Qed.

Lemma copy_pattern_gives_names_witness :
  startswith_COPY copy_query = true /\
  is_name (String.list_ascii_of_string "t") /\
  columns_of "a, b" <> [] /\
  Forall (fun col => is_name (String.list_ascii_of_string col)) (columns_of "a, b").
Proof.
  apply (copy_pattern_gives_names copy_query "t" "a, b"). reflexivity.
Defined.

(** ** The copy adapters and the rewritten arguments *)

(** X22: the COPY special case appends the table and the columns at the
    end of the job's arguments, and the copy adapters read them at the
    second position.  When the special case succeeds, the executor is
    the copy executor and the records are [count] times the [row] of the
    job's first argument.  With a job of one argument the two positions
    agree: [asyncpg_copy] hands the names of the pattern and these
    records to the driver.  With a job of more arguments the adapters
    take the records and the job's own second argument for the table and
    the columns. *)
Theorem copy_adapter_reads_the_second_argument
    (executor : executor_id) (copy_executor : option executor_id) (query : string)
    (query_info : pyval) (rest : list pyval)
    (chosen : executor_id) (args' : list pyval) (s s' : State) :
  prepare_copy executor copy_executor query (query_info :: rest) s
    = (Ok (chosen, args'), s') ->
  exists row count records table columns,
    copy_executor = Some chosen /\
    subscript query_info "row" = Ok row /\
    subscript query_info "count" = Ok count /\
    list_times row count = Ok records /\
    re_match_COPY query = Some (table, columns) /\
    match rest with
    | [] =>
        asyncpg_copy_arguments args'
        = Ok (PStr table, PList (PStr <$> columns_of columns), records)
    | second :: _ => rows_and_copy args' = Ok (records, second)
    end.
Proof.
  unfold prepare_copy. destruct copy_executor as [copy|]; [|discriminate].
  destruct (re_match_COPY query) as [[table columns]|]; [|discriminate].
  intros H.
  apply bind_Ok in H as (row & s1 & Hrow & H).
  apply bind_Ok in H as (count & s2 & Hcount & H).
  apply bind_Ok in H as (payload & s3 & Hpayload & H).
  apply lift_Ok in Hrow as [Hrow _].
  apply lift_Ok in Hcount as [Hcount _].
  apply lift_Ok in Hpayload as [Hpayload _].
  injection H as <- <- <-.
  exists row, count, payload, table, columns. split_and!; try done.
  by destruct rest.
Qed.

Lemma copy_adapter_reads_the_second_argument_witness :
  exists row count records table columns,
    Some psycopg_copy = Some psycopg_copy /\
    subscript (PDict [("row"%string, PList [PInt 1; PStr "x"]);
                      ("count"%string, PInt 5)]) "row" = Ok row /\
    subscript (PDict [("row"%string, PList [PInt 1; PStr "x"]);
                      ("count"%string, PInt 5)]) "count" = Ok count /\
    list_times row count = Ok records /\
    re_match_COPY copy_query = Some (table, columns) /\
    asyncpg_copy_arguments
      [PList (replicate 5 (PList [PInt 1; PStr "x"]));
       PDict [("table"%string, PStr "t");
              ("columns"%string, PList [PStr "a"; PStr "b"])]]
    = Ok (PStr table, PList (PStr <$> columns_of columns), records).
Proof.
  exact (copy_adapter_reads_the_second_argument psycopg_execute (Some psycopg_copy)
           copy_query _ [] _ _ state0 state0 (copy_job_expands state0)).
Defined.

(** ** Jobs without a query *)

(** X23: a job whose description has no query, or an empty one, is
    turned down by the [__main__] block whatever else it holds: one line
    on the standard error and exit status 1; its set-up statement is not
    run, and a missing tear-down statement is not reported. *)
Theorem job_without_query_is_rejected (W : World) (fuel : nat) (args : Args)
    (querydata : QueryData) (s : State) :
  truthy (qd_query querydata) = false ->
  main W fuel args querydata s
  = (Raise (SystemExit 1), logged s [StderrFatal "missing 'query' in query JSON"]).
Proof.
  intros H. unfold main. destruct (qd_query querydata); [|done]. by rewrite H.
Qed.

Lemma job_without_query_is_rejected_witness :
  main (stub_world ten_ms 0) 0 one_thread
       empty_query_job state0
  = (Raise (SystemExit 1),
     logged state0 [StderrFatal "missing 'query' in query JSON"]).
Proof.
  apply (job_without_query_is_rejected (stub_world ten_ms 0) 0 one_thread
           empty_query_job state0).
  reflexivity.
Defined.

(** ** Calls measured between two bounds *)



Section Band.

Variable executor : nat -> call.
Variables least most : Z.
Variables start duration : Z.

Hypothesis least_pos : 0 < least.
Hypothesis one_row_in_time :
  forall k, exists cost, executor k = (cost, Rows 1) /\ least <= Z.pos cost <= most.


End Band.



Section PassBand.

Variable W : World.
Variable fuel : nat.
Variable args : Args.
Variable executor : executor_id.
Variable is_async : bool.
Variable query : string.
Variable query_args : list pyval.
Variable conns : list nat.
Variables least most : Z.

Hypothesis least_pos : 0 < least.
Hypothesis one_row_in_time :
  forall conn k, exists cost,
    execute W executor conn query query_args k = (cost, Rows 1) /\
    least <= Z.pos cost <= most.
Hypothesis slowest_fits : req_time_of most < args_timeout args * 1000 * 100.
Hypothesis fuel_enough : (enough_fuel args <= fuel)%nat.

Local Abbreviation do_run :=
  (_do_run W fuel args executor is_async query query_args conns).
Local Abbreviation a_task :=
  (task W fuel args executor is_async query query_args).
Local Abbreviation given run_duration :=
  (if is_async then args_duration args else run_duration).





End PassBand.





